(** * rc_pilot: the feedback controller (feedback_controller.c)

    A shallow embedding of the interrupt-driven control loop and of the
    arm/disarm entry points, followed by the properties of the written
    specification that can be stated over it.

    Numbers.  The arithmetic of the C [double] is a parameter of the
    embedding, the class [Double]: the type, its four operations, negation,
    [fabs], the comparison [<] and the two conversions between [double] and
    [int].  It has two instances.  [binary64] is the double-precision
    arithmetic of IEEE 754 the code is compiled to, each operation rounded
    on its own, with its infinities and its NaN.  [rational] is the
    arithmetic of the rationals, with no rounding, no infinity and no NaN,
    in which [x / 0] is [0].  A theorem stated for every instance holds of
    the code as it runs; a theorem stated for [rational] is about the
    formulas of the code read over the rationals, and says so.  An [int]
    that the code only counts with is a [Z]; the [uint64_t] loop counter
    wraps at [2^64].

    Effects.  The file-level variables of the C file form the record
    [state]; calls that leave the file (LEDs, log manager, ESC driver,
    printf, the mixer) are recorded, in order, in a trace of [event]s.
    The filter functions of the robotics library act on the filter they
    are handed and leave no event.  [get_state()] reads a variable that
    other threads write: each of the two calls of a tick has its own
    answer.

    The source at hand does not compile as it stands (it uses [set] both
    as a pointer and as a struct, [new_mot], [d_yaw], [last_alt_ctrl_en]
    and [last_arm_state] without declaring them); each such place is
    read the one way the surrounding code allows, and is marked where it
    is embedded. *)

From Stdlib Require Import ZArith QArith Qabs List String Bool Lia Lqa.
From Stdlib Require Floats.
Import ListNotations.

(** ** The arithmetic of [double] *)

Class Double := {
  double : Type;
  (** [(double)i] and [(int)x] *)
  of_int : Z -> double;
  double_to_int : double -> Z;
  dadd : double -> double -> double;
  dsub : double -> double -> double;
  dmul : double -> double -> double;
  ddiv : double -> double -> double;
  dneg : double -> double;
  fabs : double -> double;
  (** [a < b]; the code's [a > b] is [dlt b a] *)
  dlt : double -> double -> bool
}.

Declare Scope double_scope.
Delimit Scope double_scope with dbl.

Notation "x + y" := (dadd x y) : double_scope.
Notation "x - y" := (dsub x y) : double_scope.
Notation "x * y" := (dmul x y) : double_scope.
Notation "x / y" := (ddiv x y) : double_scope.
Notation "- x" := (dneg x) : double_scope.
Notation "x <? y" := (dlt x y) : double_scope.
Notation "0" := (of_int 0) : double_scope.
Notation "1" := (of_int 1) : double_scope.

(** The decimal literal [n/d], for integers that a [double] holds exactly:
    the quotient of the two is the [double] nearest to [n/d], which is
    what the compiler makes of the literal. *)
Definition lit {DB : Double} (n : Z) (d : positive) : double :=
  (of_int n / of_int (Z.pos d))%dbl.

(** *** The rationals *)

Definition Qltb (a b : Q) : bool := negb (Qle_bool b a).

(** Conversion to [int] discards the fractional part (truncation toward
    zero). *)
Definition Q_to_int (x : Q) : Z := Z.quot (Qnum x) (Z.pos (Qden x)).

Definition rational : Double := {|
  double := Q;
  of_int := inject_Z;
  double_to_int := Q_to_int;
  dadd := Qplus;
  dsub := Qminus;
  dmul := Qmult;
  ddiv := Qdiv;
  dneg := Qopp;
  fabs := Qabs;
  dlt := Qltb
|}.

(** *** IEEE 754 double precision *)

(** [(double)i], rounded to nearest. *)
Definition float_of_int (i : Z) : PrimFloat.float :=
  FloatOps.SF2Prim
    (SpecFloat.binary_normalize FloatOps.prec FloatOps.emax i 0 false).

(** [(int)x]: the fractional part is discarded.  For a NaN, an infinity and
    a value beyond the range of [int] C leaves the conversion undefined;
    the model answers 0 for the first two and does not wrap the third. *)
Definition float_to_int (x : PrimFloat.float) : Z :=
  match FloatOps.Prim2SF x with
  | SpecFloat.S754_finite s m e =>
      let a := match e with
               | Z0 => Z.pos m
               | Z.pos p => (Z.pos m * 2 ^ Z.pos p)%Z
               | Z.neg p => (Z.pos m / 2 ^ Z.pos p)%Z
               end in
      if s then (- a)%Z else a
  | _ => 0%Z
  end.

Definition binary64 : Double := {|
  double := PrimFloat.float;
  of_int := float_of_int;
  double_to_int := float_to_int;
  dadd := PrimFloat.add;
  dsub := PrimFloat.sub;
  dmul := PrimFloat.mul;
  ddiv := PrimFloat.div;
  dneg := PrimFloat.opp;
  fabs := PrimFloat.abs;
  dlt := PrimFloat.ltb
|}.

Open Scope double_scope.

(** ** Types of the headers (fly_types.h, roboticscape.h) *)

Inductive arm_state_t := DISARMED | ARMED.

(** roboticscape's process-wide run state, read with [get_state()]. *)
Inductive rc_state_t := UNINITIALIZED | RUNNING | PAUSED | EXITING.

Inductive led_t := GREEN | RED.

(** Indices into [imu->fusedTaitBryan]. *)
Inductive vec3_t := VEC3_X | VEC3_Y | VEC3_Z.

(** Indices into the control vector [u] and channels of the mixing
    matrix: six macros of fly_defs.h, taken to be six different indices. *)
Inductive channel := VEC_X | VEC_Y | VEC_THR | VEC_ROLL | VEC_PITCH | VEC_YAW.

Definition channel_eqb (a b : channel) : bool :=
  match a, b with
  | VEC_X, VEC_X | VEC_Y, VEC_Y | VEC_THR, VEC_THR
  | VEC_ROLL, VEC_ROLL | VEC_PITCH, VEC_PITCH | VEC_YAW, VEC_YAW => true
  | _, _ => false
  end.

Definition arm_state_eqb (a b : arm_state_t) : bool :=
  match a, b with
  | DISARMED, DISARMED | ARMED, ARMED => true
  | _, _ => false
  end.

Definition rc_state_eqb (a b : rc_state_t) : bool :=
  match a, b with
  | UNINITIALIZED, UNINITIALIZED | RUNNING, RUNNING
  | PAUSED, PAUSED | EXITING, EXITING => true
  | _, _ => false
  end.

Section Headers.

Context {DB : Double}.

Record imu_data_t := { fusedTaitBryan : vec3_t -> double }.

Record fly_settings_t := {
  num_rotors : Z;
  v_nominal : double;
  enable_logging : bool
}.

Record setpoint_t := {
  sp_roll : double;
  sp_pitch : double;
  sp_yaw : double;
  yaw_rate : double;
  Z_throttle : double;
  X_throttle : double;
  Y_throttle : double;
  en_rpy_ctrl : bool;
  en_6dof : bool
}.

(** The source reads the battery voltage as [cs->v_batt] and logs it as
    [cs->vbatt]; both are the one field [v_batt] here. *)
Record cstate_t := {
  roll : double;
  pitch : double;
  yaw : double;
  alt : double;
  v_batt : double;
  m : list double
}.

Record log_entry_t := {
  log_loop_index : Z;
  log_alt : double;
  log_roll : double;
  log_pitch : double;
  log_yaw : double;
  log_vbatt : double;
  u_thr : double;
  u_roll : double;
  u_pitch : double;
  u_yaw : double;
  u_X : double;
  u_Y : double;
  mot_1 : double;
  mot_2 : double;
  mot_3 : double;
  mot_4 : double;
  mot_5 : double;
  mot_6 : double
}.

(** ** What the file takes from elsewhere *)

(** Constants of fly_defs.h, which is not part of the sources at hand. *)
Class FlyDefs := {
  TIP_ANGLE : double;
  MIN_THRUST_COMPONENT : double;
  MAX_THRUST_COMPONENT : double;
  MAX_ROLL_COMPONENT : double;
  MAX_PITCH_COMPONENT : double;
  MAX_YAW_COMPONENT : double;
  MAX_X_COMPONENT : double;
  MAX_Y_COMPONENT : double;
  DT : double;
  SOFT_START_SECONDS : double
}.

(** The discrete-filter part of the robotics library and the two
    constants and the cosine the file uses.  A [d_filter_t] is split into
    the one field this file writes, [gain], and the rest ([filter_mem]:
    coefficients, delay line, saturation window, soft-start ramp), which
    only the library touches.  The library functions read the gain and
    never write it. *)
Class RoboticsCape := {
  filter_mem : Type;
  reset_filter_mem : filter_mem -> filter_mem;
  enable_saturation_mem : filter_mem -> double -> double -> filter_mem;
  enable_soft_start_mem : filter_mem -> double -> filter_mem;
  march_filter_mem : double -> filter_mem -> double -> filter_mem * double;
  cos : double -> double;
  PI : double;
  TWO_PI : double
}.

(** The mixing matrix module (mixing_matrix.c of the repository, not part
    of the sources at hand): [add_mixed_input u ch mot] is the motor vector
    after the call, [check_channel_saturation ch mot] the pair (min, max)
    written through the two out-pointers. *)
Class Mixer := {
  add_mixed_input : double -> channel -> list double -> list double;
  check_channel_saturation : channel -> list double -> double * double
}.

(** ** Numeric helpers *)

(** Modelled from the spec: [saturate_double] of the robotics library,
    "clamp to [min, max]", by the two comparisons [val > max] and
    [val < min]: a value above [max] becomes [max], a value below [min]
    becomes [min], anything else is kept, and so is a NaN, of which neither
    comparison holds.  The spec says nothing of a window with [min] above
    [max]; no property below rests on one. *)
Definition saturate_double (val min max : double) : double :=
  if dlt max val then max
  else if dlt val min then min
  else val.

(** The idle throttle written in [set_motors_to_idle]. *)
Definition IDLE_PULSE : double := - lit 1 10.

End Headers.

(** Writing one cell of a C array; a write outside of the array is left
    out of the model. *)
Fixpoint array_set {A : Type} (i : nat) (v : A) (l : list A) : list A :=
  match l, i with
  | [], _ => []
  | _ :: t, O => v :: t
  | x :: t, S j => x :: array_set j v t
  end.

Definition uint64_max : Z := 2 ^ 64.

(** ** The texts printed *)

Definition newline : string := String (Ascii.ascii_of_nat 10) EmptyString.

Definition already_armed_warning : string :=
  ("WARNING: trying to arm when controller is already armed" ++ newline)%string.

Definition too_many_rotors_error : string :=
  ("ERROR: set_motors_to_idle: too many rotors" ++ newline)%string.

Definition tipover_message : string :=
  (newline ++ " TIPOVER DETECTED " ++ newline)%string.

Section Controller.

Context {DB : Double} {FD : FlyDefs} {RC : RoboticsCape} {MX : Mixer}.

(** ** Module state *)

Record d_filter_t := { gain : double; body : filter_mem }.

Definition reset_filter (d : d_filter_t) : d_filter_t :=
  {| gain := gain d; body := reset_filter_mem (body d) |}.

Definition enable_saturation (d : d_filter_t) (min max : double) : d_filter_t :=
  {| gain := gain d; body := enable_saturation_mem (body d) min max |}.

Definition enable_soft_start (d : d_filter_t) (secs : double) : d_filter_t :=
  {| gain := gain d; body := enable_soft_start_mem (body d) secs |}.

Definition march_filter (d : d_filter_t) (x : double) : d_filter_t * double :=
  let r := march_filter_mem (gain d) (body d) x in
  ({| gain := gain d; body := fst r |}, snd r).

Definition set_gain (g : double) (d : d_filter_t) : d_filter_t :=
  {| gain := g; body := body d |}.

(** The file-level variables.  [sp] and [cs] stand for the structs behind
    the two pointers the controller writes through; the structs it only
    reads ([imu], [set]) are in [env].  [last_yaw] is declared [int].
    [last_alt_ctrl_en] is the variable the file declares as
    [last_en_alt_ctrl]; [last_arm_state] is assigned in the file and
    declared nowhere in it.  The file-level [mot] and [tmp] are shadowed
    by the locals of [feedback_controller] and never used. *)
Record state := {
  arm_state : arm_state_t;
  D_roll : d_filter_t;
  D_pitch : d_filter_t;
  D_yaw : d_filter_t;
  D_roll_gain_orig : double;
  D_pitch_gain_orig : double;
  D_yaw_gain_orig : double;
  sp : setpoint_t;
  cs : cstate_t;
  new_log : log_entry_t;
  num_yaw_spins : Z;
  last_yaw : Z;
  u : channel -> double;
  loop_index : Z;
  last_alt_ctrl_en : Z;
  last_usr_thr : double;
  last_arm_state : arm_state_t
}.

(** The two calls of [get_state()] in [feedback_controller]: in the test
    that disarms (line 218) and in the test that idles (line 235). *)
Inductive get_state_call := disarm_test | idle_test.

(** What a call reads and never writes: the IMU sample, the settings and
    the answers of [get_state()], one for each call of the tick; the run
    state is written by other threads and may change between the two. *)
Record env := {
  imu : imu_data_t;
  set : fly_settings_t;
  get_state : get_state_call -> rc_state_t
}.

Inductive event :=
| Printf (msg : string)
| SetLed (led : led_t) (on : Z)
| StartLogManager
| StopLogManager
| SendEscPulseNormalized (ch : Z) (val : double)
| AddMixedInput (val : double) (ch : channel)
| AddLogEntry (e : log_entry_t)
| SetImuInterruptFunc.

(** *** Field updates *)

Definition with_arm_state (v : arm_state_t) (s : state) : state :=
  Build_state v (D_roll s) (D_pitch s) (D_yaw s) (D_roll_gain_orig s)
    (D_pitch_gain_orig s) (D_yaw_gain_orig s) (sp s) (cs s) (new_log s)
    (num_yaw_spins s) (last_yaw s) (u s) (loop_index s)
    (last_alt_ctrl_en s) (last_usr_thr s) (last_arm_state s).

Definition with_D_roll (v : d_filter_t) (s : state) : state :=
  Build_state (arm_state s) v (D_pitch s) (D_yaw s) (D_roll_gain_orig s)
    (D_pitch_gain_orig s) (D_yaw_gain_orig s) (sp s) (cs s) (new_log s)
    (num_yaw_spins s) (last_yaw s) (u s) (loop_index s)
    (last_alt_ctrl_en s) (last_usr_thr s) (last_arm_state s).

Definition with_D_pitch (v : d_filter_t) (s : state) : state :=
  Build_state (arm_state s) (D_roll s) v (D_yaw s) (D_roll_gain_orig s)
    (D_pitch_gain_orig s) (D_yaw_gain_orig s) (sp s) (cs s) (new_log s)
    (num_yaw_spins s) (last_yaw s) (u s) (loop_index s)
    (last_alt_ctrl_en s) (last_usr_thr s) (last_arm_state s).

Definition with_D_yaw (v : d_filter_t) (s : state) : state :=
  Build_state (arm_state s) (D_roll s) (D_pitch s) v (D_roll_gain_orig s)
    (D_pitch_gain_orig s) (D_yaw_gain_orig s) (sp s) (cs s) (new_log s)
    (num_yaw_spins s) (last_yaw s) (u s) (loop_index s)
    (last_alt_ctrl_en s) (last_usr_thr s) (last_arm_state s).

Definition with_gain_orig (r p y : double) (s : state) : state :=
  Build_state (arm_state s) (D_roll s) (D_pitch s) (D_yaw s) r p y
    (sp s) (cs s) (new_log s)
    (num_yaw_spins s) (last_yaw s) (u s) (loop_index s)
    (last_alt_ctrl_en s) (last_usr_thr s) (last_arm_state s).

Definition with_sp (v : setpoint_t) (s : state) : state :=
  Build_state (arm_state s) (D_roll s) (D_pitch s) (D_yaw s)
    (D_roll_gain_orig s) (D_pitch_gain_orig s) (D_yaw_gain_orig s)
    v (cs s) (new_log s)
    (num_yaw_spins s) (last_yaw s) (u s) (loop_index s)
    (last_alt_ctrl_en s) (last_usr_thr s) (last_arm_state s).

Definition with_cs (v : cstate_t) (s : state) : state :=
  Build_state (arm_state s) (D_roll s) (D_pitch s) (D_yaw s)
    (D_roll_gain_orig s) (D_pitch_gain_orig s) (D_yaw_gain_orig s)
    (sp s) v (new_log s)
    (num_yaw_spins s) (last_yaw s) (u s) (loop_index s)
    (last_alt_ctrl_en s) (last_usr_thr s) (last_arm_state s).

Definition with_new_log (v : log_entry_t) (s : state) : state :=
  Build_state (arm_state s) (D_roll s) (D_pitch s) (D_yaw s)
    (D_roll_gain_orig s) (D_pitch_gain_orig s) (D_yaw_gain_orig s)
    (sp s) (cs s) v
    (num_yaw_spins s) (last_yaw s) (u s) (loop_index s)
    (last_alt_ctrl_en s) (last_usr_thr s) (last_arm_state s).

Definition with_num_yaw_spins (v : Z) (s : state) : state :=
  Build_state (arm_state s) (D_roll s) (D_pitch s) (D_yaw s)
    (D_roll_gain_orig s) (D_pitch_gain_orig s) (D_yaw_gain_orig s)
    (sp s) (cs s) (new_log s)
    v (last_yaw s) (u s) (loop_index s)
    (last_alt_ctrl_en s) (last_usr_thr s) (last_arm_state s).

Definition with_last_yaw (v : Z) (s : state) : state :=
  Build_state (arm_state s) (D_roll s) (D_pitch s) (D_yaw s)
    (D_roll_gain_orig s) (D_pitch_gain_orig s) (D_yaw_gain_orig s)
    (sp s) (cs s) (new_log s)
    (num_yaw_spins s) v (u s) (loop_index s)
    (last_alt_ctrl_en s) (last_usr_thr s) (last_arm_state s).

Definition with_u (ch : channel) (v : double) (s : state) : state :=
  Build_state (arm_state s) (D_roll s) (D_pitch s) (D_yaw s)
    (D_roll_gain_orig s) (D_pitch_gain_orig s) (D_yaw_gain_orig s)
    (sp s) (cs s) (new_log s)
    (num_yaw_spins s) (last_yaw s)
    (fun c => if channel_eqb c ch then v else u s c) (loop_index s)
    (last_alt_ctrl_en s) (last_usr_thr s) (last_arm_state s).

Definition with_loop_index (v : Z) (s : state) : state :=
  Build_state (arm_state s) (D_roll s) (D_pitch s) (D_yaw s)
    (D_roll_gain_orig s) (D_pitch_gain_orig s) (D_yaw_gain_orig s)
    (sp s) (cs s) (new_log s)
    (num_yaw_spins s) (last_yaw s) (u s) v
    (last_alt_ctrl_en s) (last_usr_thr s) (last_arm_state s).

Definition with_last_alt_ctrl_en (v : Z) (s : state) : state :=
  Build_state (arm_state s) (D_roll s) (D_pitch s) (D_yaw s)
    (D_roll_gain_orig s) (D_pitch_gain_orig s) (D_yaw_gain_orig s)
    (sp s) (cs s) (new_log s)
    (num_yaw_spins s) (last_yaw s) (u s) (loop_index s)
    v (last_usr_thr s) (last_arm_state s).

Definition with_last_usr_thr (v : double) (s : state) : state :=
  Build_state (arm_state s) (D_roll s) (D_pitch s) (D_yaw s)
    (D_roll_gain_orig s) (D_pitch_gain_orig s) (D_yaw_gain_orig s)
    (sp s) (cs s) (new_log s)
    (num_yaw_spins s) (last_yaw s) (u s) (loop_index s)
    (last_alt_ctrl_en s) v (last_arm_state s).

Definition with_last_arm_state (v : arm_state_t) (s : state) : state :=
  Build_state (arm_state s) (D_roll s) (D_pitch s) (D_yaw s)
    (D_roll_gain_orig s) (D_pitch_gain_orig s) (D_yaw_gain_orig s)
    (sp s) (cs s) (new_log s)
    (num_yaw_spins s) (last_yaw s) (u s) (loop_index s)
    (last_alt_ctrl_en s) (last_usr_thr s) v.

Definition cs_with_roll (v : double) (c : cstate_t) : cstate_t :=
  Build_cstate_t v (pitch c) (yaw c) (alt c) (v_batt c) (m c).

Definition cs_with_pitch (v : double) (c : cstate_t) : cstate_t :=
  Build_cstate_t (roll c) v (yaw c) (alt c) (v_batt c) (m c).

Definition cs_with_yaw (v : double) (c : cstate_t) : cstate_t :=
  Build_cstate_t (roll c) (pitch c) v (alt c) (v_batt c) (m c).

Definition cs_with_m (v : list double) (c : cstate_t) : cstate_t :=
  Build_cstate_t (roll c) (pitch c) (yaw c) (alt c) (v_batt c) v.

Definition sp_with_yaw (v : double) (p : setpoint_t) : setpoint_t :=
  Build_setpoint_t (sp_roll p) (sp_pitch p) v (yaw_rate p) (Z_throttle p)
    (X_throttle p) (Y_throttle p) (en_rpy_ctrl p) (en_6dof p).

(** ** The monad of the embedding: state and a trace of outside calls *)

Definition M (A : Type) : Type := state -> A * state * list event.

Definition ret {A : Type} (a : A) : M A := fun s => (a, s, []).

Definition bind {A B : Type} (c : M A) (k : A -> M B) : M B :=
  fun s =>
    let '(a, s1, t1) := c s in
    let '(b, s2, t2) := k a s1 in
    (b, s2, t1 ++ t2).

Definition get : M state := fun s => (s, s, []).

Definition modify (f : state -> state) : M unit := fun s => (tt, f s, []).

Definition emit (e : event) : M unit := fun s => (tt, s, [e]).

Notation "x <- c ;; k" := (bind c (fun x => k))
  (at level 61, c at next level, right associativity).
Notation "c ;; k" := (bind c (fun _ => k))
  (at level 61, right associativity).

Definition result {A : Type} (r : A * state * list event) : A := fst (fst r).
Definition final {A : Type} (r : A * state * list event) : state := snd (fst r).
Definition trace {A : Type} (r : A * state * list event) : list event := snd r.

(** ** disarm_controller, arm_controller, zero_out_controller *)

Definition disarm_controller : M Z :=
  modify (with_arm_state DISARMED) ;;
  emit (SetLed RED 1) ;;
  emit (SetLed GREEN 0) ;;
  emit StopLogManager ;;
  ret 0%Z.

Definition zero_out_controller (e : env) : M Z :=
  modify (fun s => with_D_roll (reset_filter (D_roll s)) s) ;;
  modify (fun s => with_D_pitch (reset_filter (D_pitch s)) s) ;;
  modify (fun s => with_D_yaw (reset_filter (D_yaw s)) s) ;;
  modify (with_last_alt_ctrl_en 0%Z) ;;
  modify (with_last_usr_thr MIN_THRUST_COMPONENT) ;;
  modify (with_num_yaw_spins 0%Z) ;;
  modify (with_last_yaw (double_to_int (- fusedTaitBryan (imu e) VEC3_Z))) ;;
  ret 0%Z.

Definition arm_controller (e : env) : M Z :=
  s <- get ;;
  if arm_state_eqb (arm_state s) ARMED then
    emit (Printf already_armed_warning) ;;
    ret (-1)%Z
  else
    (if enable_logging (set e) then emit StartLogManager else ret tt) ;;
    zero_out_controller e ;;
    emit (SetLed RED 0) ;;
    emit (SetLed GREEN 1) ;;
    modify (with_arm_state ARMED) ;;
    ret 0%Z.

Definition get_controller_arm_state : M arm_state_t :=
  s <- get ;; ret (arm_state s).

(** ** set_motors_to_idle *)

(** [for(i=first; i<=last; i++)]: the values [i] takes. *)
Definition int_range (first last : Z) : list Z :=
  map (fun k => (first + Z.of_nat k)%Z) (seq 0 (Z.to_nat (last - first + 1))).

Fixpoint for_each {A : Type} (l : list A) (body : A -> M unit) : M unit :=
  match l with
  | [] => ret tt
  | i :: rest => body i ;; for_each rest body
  end.

Definition set_motors_to_idle (e : env) : M Z :=
  if (8 <? num_rotors (set e))%Z then
    emit (Printf too_many_rotors_error) ;;
    ret (-1)%Z
  else
    for_each (int_range 1 (num_rotors (set e)))
      (fun i => emit (SendEscPulseNormalized i IDLE_PULSE)) ;;
    ret 0%Z.

(** ** feedback_controller *)

(** The call [add_mixed_input(val, ch, mot)]: recorded, and the motor
    vector replaced by what the mixer leaves in it. *)
Definition call_add_mixed_input (val : double) (ch : channel) (mot : list double)
  : M (list double) :=
  emit (AddMixedInput val ch) ;;
  ret (add_mixed_input val ch mot).

(** The pattern after every [check_channel_saturation]:
    [if(max>C) max = C; if(min<-C) min = -C;]. *)
Definition limit_window (mm : double * double) (C : double) : double * double :=
  let max := if dlt C (snd mm) then C else snd mm in
  let min := if dlt (fst mm) (- C) then - C else fst mm in
  (min, max).

(** STATE_ESTIMATION: roll and pitch are copied, the yaw is unwrapped.
    The test value [tmp] carries the minus sign, the value written to
    [cs->yaw] does not, and [last_yaw], an [int], keeps the integer part. *)
Definition state_estimation (e : env) : M unit :=
  modify (fun s => with_cs (cs_with_roll (fusedTaitBryan (imu e) VEC3_Y) (cs s)) s) ;;
  modify (fun s => with_cs (cs_with_pitch (fusedTaitBryan (imu e) VEC3_X) (cs s)) s) ;;
  s <- get ;;
  let tmp := - fusedTaitBryan (imu e) VEC3_Z
             + of_int (num_yaw_spins s) * TWO_PI in
  (if dlt (tmp - of_int (last_yaw s)) (- PI) then
     modify (fun s => with_num_yaw_spins (num_yaw_spins s + 1)%Z s)
   else if dlt PI (tmp - of_int (last_yaw s)) then
     modify (fun s => with_num_yaw_spins (num_yaw_spins s - 1)%Z s)
   else ret tt) ;;
  modify (fun s =>
    with_cs (cs_with_yaw (fusedTaitBryan (imu e) VEC3_Z
                          + of_int (num_yaw_spins s) * TWO_PI) (cs s)) s) ;;
  modify (fun s => with_last_yaw (double_to_int (yaw (cs s))) s).

(** [fabs(cs->roll)>TIP_ANGLE || fabs(cs->pitch)>TIP_ANGLE] *)
Definition tipover (s : state) : bool :=
  dlt TIP_ANGLE (fabs (roll (cs s))) || dlt TIP_ANGLE (fabs (pitch (cs s))).

(** Direct throttle (the altitude controller is commented out in the
    source). *)
Definition throttle_controller (mot : list double) : M (list double) :=
  s <- get ;;
  let tmp := Z_throttle (sp s) / (cos (roll (cs s)) * cos (pitch (cs s))) in
  let tmp := saturate_double tmp (- MIN_THRUST_COMPONENT)
                                 (- MAX_THRUST_COMPONENT) in
  modify (with_u VEC_THR tmp) ;;
  mot <- call_add_mixed_input tmp VEC_THR mot ;;
  modify (fun s => with_last_usr_thr (Z_throttle (sp s)) s) ;;
  modify (with_last_alt_ctrl_en 0%Z) ;;
  ret mot.

Definition roll_controller (e : env) (mot : list double) : M (list double) :=
  let mm := limit_window (check_channel_saturation VEC_ROLL mot)
                         MAX_ROLL_COMPONENT in
  modify (fun s => with_D_roll (enable_saturation (D_roll s) (fst mm) (snd mm)) s) ;;
  modify (fun s =>
    with_D_roll (set_gain (D_roll_gain_orig s * v_nominal (set e) / v_batt (cs s))
                          (D_roll s)) s) ;;
  s <- get ;;
  let r := march_filter (D_roll s) (sp_roll (sp s) - roll (cs s)) in
  modify (with_D_roll (fst r)) ;;
  modify (with_u VEC_ROLL (snd r)) ;;
  call_add_mixed_input (snd r) VEC_ROLL mot.

Definition pitch_controller (e : env) (mot : list double) : M (list double) :=
  let mm := limit_window (check_channel_saturation VEC_PITCH mot)
                         MAX_PITCH_COMPONENT in
  modify (fun s => with_D_pitch (enable_saturation (D_pitch s) (fst mm) (snd mm)) s) ;;
  modify (fun s =>
    with_D_pitch (set_gain (D_pitch_gain_orig s * v_nominal (set e) / v_batt (cs s))
                           (D_pitch s)) s) ;;
  s <- get ;;
  let r := march_filter (D_pitch s) (sp_pitch (sp s) - pitch (cs s)) in
  modify (with_D_pitch (fst r)) ;;
  modify (with_u VEC_PITCH (snd r)) ;;
  call_add_mixed_input (snd r) VEC_PITCH mot.

Definition yaw_controller (e : env) (mot : list double) : M (list double) :=
  modify (fun s => with_sp (sp_with_yaw (sp_yaw (sp s) + DT * yaw_rate (sp s)) (sp s)) s) ;;
  let mm := limit_window (check_channel_saturation VEC_YAW mot)
                         MAX_YAW_COMPONENT in
  modify (fun s => with_D_yaw (enable_saturation (D_yaw s) (fst mm) (snd mm)) s) ;;
  modify (fun s =>
    with_D_yaw (set_gain (D_yaw_gain_orig s * v_nominal (set e) / v_batt (cs s))
                         (D_yaw s)) s) ;;
  s <- get ;;
  let r := march_filter (D_yaw s) (sp_yaw (sp s) - yaw (cs s)) in
  modify (with_D_yaw (fst r)) ;;
  modify (with_u VEC_YAW (snd r)) ;;
  call_add_mixed_input (snd r) VEC_YAW mot.

(** Roll Pitch Yaw controllers, only run if enabled. *)
Definition rpy_controllers (e : env) (mot : list double) : M (list double) :=
  s <- get ;;
  if en_rpy_ctrl (sp s) then
    mot <- roll_controller e mot ;;
    mot <- pitch_controller e mot ;;
    yaw_controller e mot
  else
    modify (with_u VEC_ROLL 0) ;;
    modify (with_u VEC_PITCH 0) ;;
    modify (with_u VEC_YAW 0) ;;
    ret mot.

(** X (Side) and Y (Forward) inputs, only when 6dof is enabled.  Both
    calls of [add_mixed_input] name the channel [VEC_Y]. *)
Definition lateral_inputs (mot : list double) : M (list double) :=
  s <- get ;;
  if en_6dof (sp s) then
    modify (with_u VEC_Y (X_throttle (sp s))) ;;
    let mm := limit_window (check_channel_saturation VEC_Y mot)
                           MAX_X_COMPONENT in
    modify (fun s => with_u VEC_Y (saturate_double (u s VEC_Y) (fst mm) (snd mm)) s) ;;
    s <- get ;;
    mot <- call_add_mixed_input (u s VEC_Y) VEC_Y mot ;;
    modify (with_u VEC_X (Y_throttle (sp s))) ;;
    let mm := limit_window (check_channel_saturation VEC_X mot)
                           MAX_Y_COMPONENT in
    modify (fun s => with_u VEC_X (saturate_double (u s VEC_X) (fst mm) (snd mm)) s) ;;
    s <- get ;;
    call_add_mixed_input (u s VEC_X) VEC_Y mot
  else
    modify (with_u VEC_Y 0) ;;
    modify (with_u VEC_X 0) ;;
    ret mot.

(** The output loop.  The source calls the vector [new_mot] here; the
    motor vector in scope is [mot].  Cell [i] is copied to [cs->m[i]]
    first, saturated in place next, and the saturated value is sent to
    channel [i+1]. *)
Fixpoint send_motors (idx : list Z) (mot : list double) : M (list double) :=
  match idx with
  | [] => ret mot
  | i :: rest =>
      let k := Z.to_nat i in
      modify (fun s => with_cs (cs_with_m (array_set k (nth k mot 0) (m (cs s))) (cs s)) s) ;;
      let val := saturate_double (nth k mot 0) 0 1 in
      emit (SendEscPulseNormalized (i + 1) val) ;;
      send_motors rest (array_set k val mot)
  end.

Definition add_log (e : env) : M unit :=
  if enable_logging (set e) then
    modify (fun s => with_new_log
      {| log_loop_index := loop_index s;
         log_alt := alt (cs s);
         log_roll := roll (cs s);
         log_pitch := pitch (cs s);
         log_yaw := yaw (cs s);
         log_vbatt := v_batt (cs s);
         u_thr := u s VEC_THR;
         u_roll := u s VEC_ROLL;
         u_pitch := u s VEC_PITCH;
         u_yaw := u s VEC_YAW;
         u_X := u s VEC_Y;
         u_Y := u s VEC_X;
         mot_1 := nth 0 (m (cs s)) 0;
         mot_2 := nth 1 (m (cs s)) 0;
         mot_3 := nth 2 (m (cs s)) 0;
         mot_4 := nth 3 (m (cs s)) 0;
         mot_5 := nth 4 (m (cs s)) 0;
         mot_6 := nth 5 (m (cs s)) 0 |} s) ;;
    s <- get ;;
    emit (AddLogEntry (new_log s))
  else ret tt.

(** The controllers of one tick, from the zeroed motor vector
    ([for(i=0;i<set->num_rotors;i++) mot[i] = 0.0;]) to the mixed one.
    Of the local array [mot] the model holds the cells the loop zeroes,
    [0 .. num_rotors). *)
Definition control_inputs (e : env) : M (list double) :=
  let mot := repeat 0 (Z.to_nat (num_rotors (set e))) in
  mot <- throttle_controller mot ;;
  mot <- rpy_controllers e mot ;;
  lateral_inputs mot.

(** Everything after the two early returns. *)
Definition control_march (e : env) : M Z :=
  mot <- control_inputs e ;;
  send_motors (int_range 0 (num_rotors (set e) - 1)) mot ;;
  add_log e ;;
  modify (fun s => with_loop_index ((loop_index s + 1) mod uint64_max)%Z s) ;;
  ret 0%Z.

Definition feedback_controller (e : env) : M Z :=
  state_estimation e ;;
  s <- get ;;
  (if negb (rc_state_eqb (get_state e disarm_test) RUNNING)
      && arm_state_eqb (arm_state s) ARMED then
     disarm_controller ;;
     modify (with_last_arm_state DISARMED)
   else ret tt) ;;
  s <- get ;;
  if tipover s then
    disarm_controller ;;
    emit (Printf tipover_message) ;;
    set_motors_to_idle e ;;
    modify (with_last_arm_state DISARMED) ;;
    ret 0%Z
  else if negb (rc_state_eqb (get_state e idle_test) RUNNING)
          || arm_state_eqb (arm_state s) DISARMED then
    set_motors_to_idle e ;;
    ret 0%Z
  else
    control_march e.

(** ** initialize_controller *)

(** The three [get_json_*_controller] calls answer with a filter or fail
    ([None]); [cstate] and [setpoint] are the structs whose addresses the
    caller hands over.  The yaw gain is saved from [D_yaw] (the source
    writes [d_yaw.gain]). *)
Definition initialize_controller (cstate : cstate_t) (setpoint : setpoint_t)
    (json_roll json_pitch json_yaw : option d_filter_t) : M Z :=
  modify (with_cs cstate) ;;
  modify (with_sp setpoint) ;;
  match json_roll with
  | None => ret (-1)%Z
  | Some dr =>
    modify (with_D_roll dr) ;;
    match json_pitch with
    | None => ret (-1)%Z
    | Some dp =>
      modify (with_D_pitch dp) ;;
      match json_yaw with
      | None => ret (-1)%Z
      | Some dy =>
        modify (with_D_yaw dy) ;;
        modify (fun s => with_gain_orig (gain (D_roll s)) (gain (D_pitch s))
                                        (gain (D_yaw s)) s) ;;
        modify (fun s => with_D_roll (enable_soft_start (D_roll s) SOFT_START_SECONDS) s) ;;
        modify (fun s => with_D_pitch (enable_soft_start (D_pitch s) SOFT_START_SECONDS) s) ;;
        modify (fun s => with_D_yaw (enable_soft_start (D_yaw s) SOFT_START_SECONDS) s) ;;
        disarm_controller ;;
        emit SetImuInterruptFunc ;;
        ret 0%Z
      end
    end
  end.

(** ** Reading a trace *)

(** The ESC commands of a trace, in order: (channel, value). *)
Fixpoint esc_commands (t : list event) : list (Z * double) :=
  match t with
  | [] => []
  | SendEscPulseNormalized ch v :: rest => (ch, v) :: esc_commands rest
  | _ :: rest => esc_commands rest
  end.

(** The calls of [add_mixed_input] of a trace, in order: (value, channel). *)
Fixpoint mixer_calls (t : list event) : list (double * channel) :=
  match t with
  | [] => []
  | AddMixedInput v ch :: rest => (v, ch) :: mixer_calls rest
  | _ :: rest => mixer_calls rest
  end.

(** The log entries pushed by a trace. *)
Fixpoint log_entries (t : list event) : list log_entry_t :=
  match t with
  | [] => []
  | AddLogEntry l :: rest => l :: log_entries rest
  | _ :: rest => log_entries rest
  end.

(** The commands [set_motors_to_idle] sends for [n] rotors. *)
Definition idle_commands (n : Z) : list (Z * double) :=
  map (fun i => (i, IDLE_PULSE)) (int_range 1 n).

(** ** The tick, case by case

    Names for the intermediate states and traces of one call of
    [feedback_controller]; the lemmas of the next part show that the
    function computes exactly these. *)

(** The state once STATE_ESTIMATION is done. *)
Definition estimated (e : env) (s : state) : state :=
  final (state_estimation e s).

Definition disarm_events : list event :=
  [SetLed RED 1; SetLed GREEN 0; StopLogManager].

(** [get_state()!=RUNNING && arm_state==ARMED] *)
Definition pre_disarm (e : env) (s : state) : bool :=
  negb (rc_state_eqb (get_state e disarm_test) RUNNING)
  && arm_state_eqb (arm_state s) ARMED.

(** [get_state()!=RUNNING || arm_state==DISARMED] *)
Definition idle_gate (e : env) (s : state) : bool :=
  negb (rc_state_eqb (get_state e idle_test) RUNNING)
  || arm_state_eqb (arm_state s) DISARMED.

Definition gate_state (e : env) (s : state) : state :=
  if pre_disarm e s
  then with_last_arm_state DISARMED (with_arm_state DISARMED s)
  else s.

Definition gate_trace (e : env) (s : state) : list event :=
  if pre_disarm e s then disarm_events else [].

Definition idle_trace (e : env) : list event :=
  if (8 <? num_rotors (set e))%Z
  then [Printf too_many_rotors_error]
  else map (fun i => SendEscPulseNormalized i IDLE_PULSE)
           (int_range 1 (num_rotors (set e))).

(** The tipover test on the IMU sample of the tick, which is what
    [cs->roll] and [cs->pitch] hold when the test is made. *)
Definition tipped (e : env) : bool :=
  dlt TIP_ANGLE (fabs (fusedTaitBryan (imu e) VEC3_Y))
  || dlt TIP_ANGLE (fabs (fusedTaitBryan (imu e) VEC3_X)).

(** The tick gets past both early returns: no tipover, both calls of
    [get_state()] answered RUNNING, ARMED at the start. *)
Definition runs_control (e : env) (s : state) : bool :=
  negb (tipped e)
  && rc_state_eqb (get_state e disarm_test) RUNNING
  && rc_state_eqb (get_state e idle_test) RUNNING
  && arm_state_eqb (arm_state s) ARMED.

(** The state in which the controllers start, and the motor vector they
    leave for the output loop. *)
Definition gated (e : env) (s : state) : state :=
  gate_state e (estimated e s).

Definition mixed (e : env) (s : state) : list double :=
  result (control_inputs e (gated e s)).

(** The output loop, seen from outside: what is sent, what is stored in
    [cs->m], and the vector left behind. *)
Fixpoint sent (idx : list Z) (mot : list double) : list (Z * double) :=
  match idx with
  | [] => []
  | i :: rest =>
      let k := Z.to_nat i in
      let val := saturate_double (nth k mot 0) 0 1 in
      ((i + 1)%Z, val) :: sent rest (array_set k val mot)
  end.

Fixpoint stored (idx : list Z) (mot ms : list double) : list double :=
  match idx with
  | [] => ms
  | i :: rest =>
      let k := Z.to_nat i in
      stored rest (array_set k (saturate_double (nth k mot 0) 0 1) mot)
                  (array_set k (nth k mot 0) ms)
  end.

Fixpoint saturated (idx : list Z) (mot : list double) : list double :=
  match idx with
  | [] => mot
  | i :: rest =>
      let k := Z.to_nat i in
      saturated rest (array_set k (saturate_double (nth k mot 0) 0 1) mot)
  end.

Definition esc_event (c : Z * double) : event :=
  SendEscPulseNormalized (fst c) (snd c).

(** *** Frames

    [quiet view allowed c]: the computation [c] leaves [view] of the state
    as it was and emits only [allowed] events. *)
Definition quiet {A X : Type} (view : state -> X) (allowed : event -> Prop)
    (c : M A) : Prop :=
  forall s, view (final (c s)) = view s /\ Forall allowed (trace (c s)).

(** The only calls the controllers make: the mixer, never on [VEC_X]. *)
Definition mix_event (ev : event) : Prop :=
  match ev with
  | AddMixedInput _ ch => ch <> VEC_X
  | _ => False
  end.

Definition esc_event_only (ev : event) : Prop :=
  match ev with
  | SendEscPulseNormalized _ _ => True
  | _ => False
  end.

Definition log_event_only (ev : event) : Prop :=
  match ev with
  | AddLogEntry _ => True
  | _ => False
  end.

(** The calls of the throttle and roll/pitch/yaw controllers. *)
Definition main_axis_event (ev : event) : Prop :=
  match ev with
  | AddMixedInput _ ch => ch <> VEC_X /\ ch <> VEC_Y
  | _ => False
  end.

(** The state [arm_controller] leaves when it does arm. *)
Definition armed_state (e : env) (s : state) : state :=
  with_arm_state ARMED
    (with_last_yaw (double_to_int (- fusedTaitBryan (imu e) VEC3_Z))
      (with_num_yaw_spins 0%Z
        (with_last_usr_thr MIN_THRUST_COMPONENT
          (with_last_alt_ctrl_en 0%Z
            (with_D_yaw (reset_filter (D_yaw s))
              (with_D_pitch (reset_filter (D_pitch s))
                (with_D_roll (reset_filter (D_roll s)) s))))))).

(** [gain_orig * set->v_nominal / cs->v_batt] *)
Definition scheduled_gain (e : env) (s : state) (gain_orig : double) : double :=
  gain_orig * v_nominal (set e) / v_batt (cs s).

(** What the controllers leave alone. *)
Definition inputs_view (s : state) :=
  (arm_state s, cs s, loop_index s, new_log s,
   (D_roll_gain_orig s, D_pitch_gain_orig s, D_yaw_gain_orig s),
   (en_rpy_ctrl (sp s), en_6dof (sp s), X_throttle (sp s), Y_throttle (sp s))).

(** What the output loop, the log and the loop counter leave alone. *)
Definition control_view (s : state) :=
  (arm_state s, D_roll s, D_pitch s, D_yaw s, u s, sp s,
   (D_roll_gain_orig s, D_pitch_gain_orig s, D_yaw_gain_orig s),
   (roll (cs s), pitch (cs s), yaw (cs s), v_batt (cs s))).

(** ** The interrupt handler over time *)

(** [feedback_controller] is installed as the IMU interrupt function and
    runs once per sample: the state after the samples [es], and
    everything emitted on the way, in order. *)
Fixpoint run_ticks (es : list env) (s : state) : state * list event :=
  match es with
  | [] => (s, [])
  | e :: rest =>
      let r := feedback_controller e s in
      let r' := run_ticks rest (final r) in
      (fst r', trace r ++ snd r')
  end.

(** The calls a tick makes on its control path: mixer, ESC driver, log. *)
Definition control_event (ev : event) : Prop :=
  match ev with
  | AddMixedInput _ _ | SendEscPulseNormalized _ _ | AddLogEntry _ => True
  | _ => False
  end.

(** The texts a trace prints, in order. *)
Fixpoint printed (t : list event) : list string :=
  match t with
  | [] => []
  | Printf msg :: rest => msg :: printed rest
  | _ :: rest => printed rest
  end.

(** The LED and log-manager calls of a trace, in order. *)
Fixpoint annunciations (t : list event) : list event :=
  match t with
  | [] => []
  | SetLed l v :: rest => SetLed l v :: annunciations rest
  | StartLogManager :: rest => StartLogManager :: annunciations rest
  | StopLogManager :: rest => StopLogManager :: annunciations rest
  | _ :: rest => annunciations rest
  end.

(** The setpoint once the three controllers are through. *)
Definition setpoint_after (s : state) : setpoint_t :=
  if en_rpy_ctrl (sp s)
  then sp_with_yaw (sp_yaw (sp s) + DT * yaw_rate (sp s)) (sp s)
  else sp s.

(** The mixer calls of one pass of the controllers, read off a control
    vector. *)
Definition calls_of (s : state) (u' : channel -> double) : list (double * channel) :=
  (u' VEC_THR, VEC_THR)
  :: (if en_rpy_ctrl (sp s)
      then [(u' VEC_ROLL, VEC_ROLL); (u' VEC_PITCH, VEC_PITCH);
            (u' VEC_YAW, VEC_YAW)]
      else [])
  ++ (if en_6dof (sp s)
      then [(u' VEC_Y, VEC_Y); (u' VEC_X, VEC_Y)]
      else []).

End Controller.

Arguments d_filter_t {DB RC}.
Arguments state {DB RC}.

(** ** A bench configuration

    A concrete set of constants and collaborators on which the controller
    can be run, in either arithmetic: four rotors, a linear mixer with
    exact headroom, and proportional compensators with an output window. *)

Module Bench.

Section Bench.

Context {DB : Double}.

(** The direct-throttle code saturates to
    [-MIN_THRUST_COMPONENT, -MAX_THRUST_COMPONENT]; the two constants are
    set so that this is a window, from -0.8 to -0.1. *)
Definition defs : FlyDefs := {|
  TIP_ANGLE := lit 3 2;
  MIN_THRUST_COMPONENT := lit 4 5;
  MAX_THRUST_COMPONENT := lit 1 10;
  MAX_ROLL_COMPONENT := lit 1 5;
  MAX_PITCH_COMPONENT := lit 1 5;
  MAX_YAW_COMPONENT := lit 1 5;
  MAX_X_COMPONENT := 1;
  MAX_Y_COMPONENT := 1;
  DT := lit 1 200;
  SOFT_START_SECONDS := 1
|}.

(** The [double] nearest to pi, as the quotient of two integers that a
    [double] holds exactly. *)
Definition M_PI : double := lit 884279719003555 281474976710656.

(** A proportional compensator: the memory is the output window, if one
    was enabled; the output is [gain * x], clamped to the window. *)
Definition lib : RoboticsCape := {|
  filter_mem := option (double * double);
  reset_filter_mem := fun w => w;
  enable_saturation_mem := fun _ lo hi => Some (lo, hi);
  enable_soft_start_mem := fun w _ => w;
  march_filter_mem := fun g w x =>
    (w, match w with
        | Some (lo, hi) => saturate_double (g * x) lo hi
        | None => g * x
        end);
  cos := fun x => 1 - x * x / of_int 2;
  PI := M_PI;
  TWO_PI := of_int 2 * M_PI
|}.

(** Mixing weights of the four rotors, per channel. *)
Definition mix_row (ch : channel) : list double :=
  match ch with
  | VEC_THR => [-(1); -(1); -(1); -(1)]
  | VEC_ROLL => [- lit 1 2; lit 1 2; lit 1 2; - lit 1 2]
  | VEC_PITCH => [lit 1 2; lit 1 2; - lit 1 2; - lit 1 2]
  | VEC_YAW => [lit 1 2; - lit 1 2; lit 1 2; - lit 1 2]
  | VEC_X => [lit 1 4; lit 1 4; lit 1 4; lit 1 4]
  | VEC_Y => [1; 1; 1; 1]
  end.

Fixpoint add_row (val : double) (row mot : list double) : list double :=
  match mot, row with
  | x :: mot', w :: row' => (x + val * w) :: add_row val row' mot'
  | _, _ => mot
  end.

(** The inputs [v] with [0 <= x + v*w <= 1], as (least, greatest). *)
Definition headroom (w x : double) : double * double :=
  if 0 <? w then ((0 - x) / w, (1 - x) / w)
  else if w <? 0 then ((1 - x) / w, (0 - x) / w)
  else (- of_int 1000, of_int 1000).

Fixpoint window (row mot : list double) : double * double :=
  match mot, row with
  | x :: mot', w :: row' =>
      let h := headroom w x in
      let r := window row' mot' in
      (if fst r <? fst h then fst h else fst r,
       if snd h <? snd r then snd h else snd r)
  | _, _ => (- of_int 1000, of_int 1000)
  end.

Definition mixer : Mixer := {|
  add_mixed_input := fun val ch mot => add_row val (mix_row ch) mot;
  check_channel_saturation := fun ch mot => window (mix_row ch) mot
|}.

#[local] Existing Instance defs.
#[local] Existing Instance lib.
#[local] Existing Instance mixer.

Definition settings : fly_settings_t :=
  {| num_rotors := 4; v_nominal := lit 111 10; enable_logging := true |}.

Definition level : imu_data_t := {| fusedTaitBryan := fun _ => 0 |}.

Definition imu_yaw (z : double) : imu_data_t :=
  {| fusedTaitBryan := fun a => match a with VEC3_Z => z | _ => 0 end |}.

Definition imu_tilt (x : double) : imu_data_t :=
  {| fusedTaitBryan := fun a => match a with VEC3_X => x | _ => 0 end |}.

(** The run state: RUNNING at both calls, PAUSED at both, and PAUSED by
    another thread between the two. *)
Definition running (i : imu_data_t) : env :=
  {| imu := i; set := settings; get_state := fun _ => RUNNING |}.

Definition paused (i : imu_data_t) : env :=
  {| imu := i; set := settings; get_state := fun _ => PAUSED |}.

Definition pausing (i : imu_data_t) : env :=
  {| imu := i; set := settings;
     get_state := fun c => match c with
                           | disarm_test => RUNNING
                           | idle_test => PAUSED
                           end |}.

Definition hover : setpoint_t := {|
  sp_roll := 0; sp_pitch := 0; sp_yaw := 0; yaw_rate := 0;
  Z_throttle := - lit 1 2; X_throttle := 0; Y_throttle := 0;
  en_rpy_ctrl := true; en_6dof := false
|}.

Definition sideways : setpoint_t := {|
  sp_roll := 0; sp_pitch := 0; sp_yaw := 0; yaw_rate := 0;
  Z_throttle := - lit 1 2; X_throttle := 0; Y_throttle := lit 4 5;
  en_rpy_ctrl := false; en_6dof := true
|}.

Definition cstate0 (vb : double) : cstate_t :=
  {| roll := 0; pitch := 0; yaw := 0; alt := 0; v_batt := vb;
     m := [0; 0; 0; 0; 0; 0; 0; 0] |}.

Definition log0 : log_entry_t :=
  Build_log_entry_t 0%Z 0 0 0 0 0 0 0 0 0 0 0 0 0 0 0 0 0.

Definition unit_gain : d_filter_t := {| gain := 1; body := None |}.

(** Memory as the C runtime hands it over: everything zero. *)
Definition blank : state := {|
  arm_state := DISARMED;
  D_roll := {| gain := 0; body := None |};
  D_pitch := {| gain := 0; body := None |};
  D_yaw := {| gain := 0; body := None |};
  D_roll_gain_orig := 0; D_pitch_gain_orig := 0; D_yaw_gain_orig := 0;
  sp := hover; cs := cstate0 0; new_log := log0;
  num_yaw_spins := 0; last_yaw := 0; u := fun _ => 0;
  loop_index := 0; last_alt_ctrl_en := 0; last_usr_thr := 0;
  last_arm_state := DISARMED
|}.

(** The state after [initialize_controller], with unit gains, for a
    battery voltage [vb] and a setpoint [p]. *)
Definition booted (vb : double) (p : setpoint_t) : state :=
  final (initialize_controller (cstate0 vb) p
           (Some {| gain := 1; body := None |})
           (Some {| gain := 1; body := None |})
           (Some {| gain := 1; body := None |}) blank).

(** The same after [arm_controller] with the vehicle level. *)
Definition armed (vb : double) (p : setpoint_t) : state :=
  final (arm_controller (running level) (booted vb p)).

(** Initialised with the gain [g] on the three axes, then armed. *)
Definition tuned (g vb : double) (p : setpoint_t) : state :=
  final (arm_controller (running level)
    (final (initialize_controller (cstate0 vb) p
              (Some {| gain := g; body := None |})
              (Some {| gain := g; body := None |})
              (Some {| gain := g; body := None |}) blank))).

(** More bench inputs: settings with nine rotors, settings with logging
    off, and a setpoint with every axis switched on. *)
Definition nine_rotors : env :=
  {| imu := level;
     set := {| num_rotors := 9; v_nominal := lit 111 10;
               enable_logging := true |};
     get_state := fun _ => RUNNING |}.

Definition unlogged (i : imu_data_t) : env :=
  {| imu := i;
     set := {| num_rotors := 4; v_nominal := lit 111 10;
               enable_logging := false |};
     get_state := fun _ => RUNNING |}.

Definition flying : setpoint_t := {|
  sp_roll := lit 1 10; sp_pitch := - lit 1 10; sp_yaw := 0; yaw_rate := 1;
  Z_throttle := - lit 1 2; X_throttle := lit 1 20; Y_throttle := lit 1 20;
  en_rpy_ctrl := true; en_6dof := true
|}.

Definition throttle_only : setpoint_t := {|
  sp_roll := lit 1 10; sp_pitch := - lit 1 10; sp_yaw := 0; yaw_rate := 1;
  Z_throttle := - lit 1 2; X_throttle := lit 1 20; Y_throttle := lit 1 20;
  en_rpy_ctrl := false; en_6dof := false
|}.

End Bench.

End Bench.
(** * Properties *)

Section Properties.

Context {DB : Double} {FD : FlyDefs} {RC : RoboticsCape} {MX : Mixer}.

(** ** Arrays *)

Lemma array_set_length {A : Type} (l : list A) : forall i v,
  List.length (array_set i v l) = List.length l.
Proof.
  induction l as [|x l IH]; intros [|i] v; cbn; try reflexivity.
  now rewrite IH.
Qed.

Lemma nth_array_set_same {A : Type} (l : list A) : forall i v d,
  (i < List.length l)%nat -> nth i (array_set i v l) d = v.
Proof.
  induction l as [|x l IH]; intros [|i] v d H; cbn in *; try lia.
  - reflexivity.
  - apply IH. lia.
Qed.

Lemma nth_array_set_other {A : Type} (l : list A) : forall i j v d,
  i <> j -> nth i (array_set j v l) d = nth i l d.
Proof.
  induction l as [|x l IH]; intros [|i] [|j] v d H; cbn; try reflexivity.
  - contradiction.
  - apply IH. congruence.
Qed.

Lemma int_range_In first last i :
  In i (int_range first last) <-> (first <= i <= last)%Z.
Proof.
  unfold int_range. rewrite in_map_iff. split.
  - intros [k [Hk Hin]]. apply in_seq in Hin. lia.
  - intros H. exists (Z.to_nat (i - first)). split; [lia|].
    apply in_seq. lia.
Qed.

(** ** Running the monad *)

Lemma bind_run {A B : Type} (c : M A) (k : A -> M B) (s : state) :
  bind c k s =
  (result (k (result (c s)) (final (c s))),
   final (k (result (c s)) (final (c s))),
   trace (c s) ++ trace (k (result (c s)) (final (c s)))).
Proof.
  unfold bind, result, final, trace.
  destruct (c s) as [[a s1] t1]. cbn [fst snd].
  destruct (k a s1) as [[b s2] t2]. reflexivity.
Qed.

Lemma final_bind {A B : Type} (c : M A) (k : A -> M B) (s : state) :
  final (bind c k s) = final (k (result (c s)) (final (c s))).
Proof. rewrite bind_run. reflexivity. Qed.

Lemma trace_bind {A B : Type} (c : M A) (k : A -> M B) (s : state) :
  trace (bind c k s) = trace (c s) ++ trace (k (result (c s)) (final (c s))).
Proof. rewrite bind_run. reflexivity. Qed.

Lemma result_bind {A B : Type} (c : M A) (k : A -> M B) (s : state) :
  result (bind c k s) = result (k (result (c s)) (final (c s))).
Proof. rewrite bind_run. reflexivity. Qed.

(** ** Frames *)

Section Frames.

Context {X : Type} (view : state -> X) (allowed : event -> Prop).

Lemma quiet_ret {A : Type} (a : A) : quiet view allowed (ret a).
Proof. intro s. split; [reflexivity | constructor]. Qed.

Lemma quiet_get : quiet view allowed get.
Proof. intro s. split; [reflexivity | constructor]. Qed.

Lemma quiet_modify (f : state -> state) :
  (forall s, view (f s) = view s) -> quiet view allowed (modify f).
Proof. intros H s. split; [apply H | constructor]. Qed.

Lemma quiet_emit (ev : event) : allowed ev -> quiet view allowed (emit ev).
Proof. intros H s. split; [reflexivity | repeat constructor; exact H]. Qed.

Lemma quiet_bind {A B : Type} (c : M A) (k : A -> M B) :
  quiet view allowed c -> (forall a, quiet view allowed (k a)) ->
  quiet view allowed (bind c k).
Proof.
  intros Hc Hk s. rewrite final_bind, trace_bind.
  destruct (Hc s) as [Hv Ht].
  destruct (Hk (result (c s)) (final (c s))) as [Hv' Ht'].
  split; [congruence | apply Forall_app; split; assumption].
Qed.

Lemma quiet_if {A : Type} (b : bool) (c1 c2 : M A) :
  quiet view allowed c1 -> quiet view allowed c2 ->
  quiet view allowed (if b then c1 else c2).
Proof. destruct b; auto. Qed.

End Frames.

Ltac quiet_step :=
  first
  [ apply quiet_ret
  | apply quiet_get
  | apply quiet_modify; intro; reflexivity
  | apply quiet_emit; cbn; first [exact I | congruence | split; congruence]
  | apply quiet_bind; [| intro]
  | apply quiet_if ].

Ltac quiet_auto := cbv zeta; repeat quiet_step.

Lemma control_inputs_quiet e :
  quiet inputs_view mix_event (control_inputs e).
Proof.
  unfold control_inputs, throttle_controller, rpy_controllers, roll_controller,
    pitch_controller, yaw_controller, lateral_inputs, call_add_mixed_input.
  quiet_auto.
Qed.

Lemma send_motors_quiet idx : forall mot,
  quiet (fun s => (control_view s, loop_index s, new_log s)) esc_event_only
        (send_motors idx mot).
Proof.
  induction idx as [|i rest IH]; intro mot; cbn [send_motors].
  - apply quiet_ret.
  - quiet_auto. apply IH.
Qed.

Lemma add_log_quiet e :
  quiet (fun s => (control_view s, loop_index s, m (cs s))) log_event_only
        (add_log e).
Proof. unfold add_log. quiet_auto. Qed.

(** ** Reading traces *)

Lemma esc_commands_app t1 t2 :
  esc_commands (t1 ++ t2) = esc_commands t1 ++ esc_commands t2.
Proof.
  induction t1 as [|ev t1 IH]; [reflexivity|].
  destruct ev; cbn; rewrite ?IH; reflexivity.
Qed.

Lemma mixer_calls_app t1 t2 :
  mixer_calls (t1 ++ t2) = mixer_calls t1 ++ mixer_calls t2.
Proof.
  induction t1 as [|ev t1 IH]; [reflexivity|].
  destruct ev; cbn; rewrite ?IH; reflexivity.
Qed.

Lemma log_entries_app t1 t2 :
  log_entries (t1 ++ t2) = log_entries t1 ++ log_entries t2.
Proof.
  induction t1 as [|ev t1 IH]; [reflexivity|].
  destruct ev; cbn; rewrite ?IH; reflexivity.
Qed.

Lemma esc_commands_esc_events l :
  esc_commands (map esc_event l) = l.
Proof.
  induction l as [|[ch v] l IH]; [reflexivity|]. cbn. now rewrite IH.
Qed.

Lemma mix_events_silent t :
  Forall mix_event t ->
  esc_commands t = [] /\ log_entries t = []
  /\ Forall (fun c => snd c <> VEC_X) (mixer_calls t).
Proof.
  induction 1 as [|ev t Hev _ IH]; [repeat split; constructor|].
  destruct IH as [He [Hl Hm]].
  destruct ev; cbn in *; try contradiction.
  repeat split; try assumption. constructor; assumption.
Qed.

Lemma log_events_only t :
  Forall log_event_only t -> mixer_calls t = [] /\ esc_commands t = [].
Proof.
  induction 1 as [|ev t Hev _ IH]; [split; reflexivity|].
  destruct ev; cbn in *; try contradiction. exact IH.
Qed.

(** ** The pieces of a tick *)

Lemma disarm_controller_run (s : state) :
  disarm_controller s = (0%Z, with_arm_state DISARMED s, disarm_events).
Proof. reflexivity. Qed.

Lemma for_each_emit {A : Type} (f : A -> event) (l : list A) (s : state) :
  for_each l (fun i => emit (f i)) s = (tt, s, map f l).
Proof.
  induction l as [|a l IH]; [reflexivity|].
  cbn [for_each map]. unfold bind, emit in *. rewrite IH. reflexivity.
Qed.

Lemma set_motors_to_idle_run e s :
  set_motors_to_idle e s =
  (if (8 <? num_rotors (set e))%Z then (-1)%Z else 0%Z, s, idle_trace e).
Proof.
  unfold set_motors_to_idle, idle_trace.
  destruct (8 <? num_rotors (set e))%Z; [reflexivity|].
  unfold bind. rewrite for_each_emit. unfold ret.
  rewrite app_nil_r. reflexivity.
Qed.

Lemma state_estimation_run e s :
  state_estimation e s = (tt, estimated e s, []).
Proof.
  unfold estimated, state_estimation, bind, get, modify, ret, final.
  cbv beta iota zeta.
  destruct (dlt _ _); [reflexivity|]. destruct (dlt _ _); reflexivity.
Qed.

(** The yaw estimator of one tick, as the code computes it. *)
Lemma estimated_yaw e s :
  let tmp := - fusedTaitBryan (imu e) VEC3_Z
             + of_int (num_yaw_spins s) * TWO_PI in
  let n := if tmp - of_int (last_yaw s) <? - PI
           then (num_yaw_spins s + 1)%Z
           else if PI <? tmp - of_int (last_yaw s)
           then (num_yaw_spins s - 1)%Z
           else num_yaw_spins s in
  num_yaw_spins (estimated e s) = n
  /\ yaw (cs (estimated e s)) = fusedTaitBryan (imu e) VEC3_Z + of_int n * TWO_PI
  /\ last_yaw (estimated e s) = double_to_int (yaw (cs (estimated e s))).
Proof.
  unfold estimated, state_estimation, bind, get, modify, ret, final.
  cbv beta iota zeta.
  destruct (dlt _ _); [repeat split|]. destruct (dlt _ _); repeat split.
Qed.

(** What STATE_ESTIMATION writes and what it leaves alone. *)
Lemma estimated_frame e s :
  roll (cs (estimated e s)) = fusedTaitBryan (imu e) VEC3_Y
  /\ pitch (cs (estimated e s)) = fusedTaitBryan (imu e) VEC3_X
  /\ v_batt (cs (estimated e s)) = v_batt (cs s)
  /\ m (cs (estimated e s)) = m (cs s)
  /\ arm_state (estimated e s) = arm_state s
  /\ loop_index (estimated e s) = loop_index s
  /\ sp (estimated e s) = sp s
  /\ u (estimated e s) = u s
  /\ (D_roll (estimated e s), D_pitch (estimated e s), D_yaw (estimated e s))
     = (D_roll s, D_pitch s, D_yaw s)
  /\ (D_roll_gain_orig (estimated e s), D_pitch_gain_orig (estimated e s),
      D_yaw_gain_orig (estimated e s))
     = (D_roll_gain_orig s, D_pitch_gain_orig s, D_yaw_gain_orig s).
Proof.
  unfold estimated, state_estimation, bind, get, modify, ret, final.
  cbv beta iota zeta.
  destruct (dlt _ _); [repeat split|]. destruct (dlt _ _); repeat split.
Qed.

Lemma tipover_gated e s : tipover (gated e s) = tipped e.
Proof.
  destruct (estimated_frame e s) as [Hr [Hp _]].
  unfold gated, gate_state, tipover, tipped.
  destruct (pre_disarm e (estimated e s)); cbn [cs with_last_arm_state with_arm_state];
    rewrite Hr, Hp; reflexivity.
Qed.

Lemma arm_state_gated e s :
  arm_state (gated e s)
  = if rc_state_eqb (get_state e disarm_test) RUNNING
    then arm_state s else DISARMED.
Proof.
  destruct (estimated_frame e s) as [_ [_ [_ [_ [Ha _]]]]].
  unfold gated, gate_state, pre_disarm. rewrite Ha.
  destruct (rc_state_eqb (get_state e disarm_test) RUNNING); cbn [negb andb];
    [exact Ha|].
  destruct (arm_state s); cbn [arm_state_eqb]; [exact Ha | reflexivity].
Qed.

Lemma idle_gate_gated e s :
  idle_gate e (gated e s)
  = negb (rc_state_eqb (get_state e disarm_test) RUNNING
          && rc_state_eqb (get_state e idle_test) RUNNING
          && arm_state_eqb (arm_state s) ARMED).
Proof.
  unfold idle_gate. rewrite arm_state_gated.
  destruct (rc_state_eqb (get_state e disarm_test) RUNNING),
    (rc_state_eqb (get_state e idle_test) RUNNING), (arm_state s);
    reflexivity.
Qed.

(** What the first safety gate leaves alone: everything but the two arm
    state variables. *)
Lemma gated_frame e s :
  cs (gated e s) = cs (estimated e s)
  /\ loop_index (gated e s) = loop_index s
  /\ sp (gated e s) = sp s
  /\ u (gated e s) = u s
  /\ (D_roll (gated e s), D_pitch (gated e s), D_yaw (gated e s))
     = (D_roll s, D_pitch s, D_yaw s)
  /\ (D_roll_gain_orig (gated e s), D_pitch_gain_orig (gated e s),
      D_yaw_gain_orig (gated e s))
     = (D_roll_gain_orig s, D_pitch_gain_orig s, D_yaw_gain_orig s).
Proof.
  destruct (estimated_frame e s) as [_ [_ [_ [_ [_ [Hl [Hs [Hu [Hd Hg]]]]]]]]].
  unfold gated, gate_state.
  destruct (pre_disarm e (estimated e s));
    cbn [cs loop_index sp u D_roll D_pitch D_yaw D_roll_gain_orig
         D_pitch_gain_orig D_yaw_gain_orig with_last_arm_state with_arm_state];
    repeat split; assumption.
Qed.

(** One call of [feedback_controller], case by case. *)
Lemma feedback_controller_run e s :
  feedback_controller e s =
  if tipped e then
    (0%Z, with_last_arm_state DISARMED (with_arm_state DISARMED (gated e s)),
     gate_trace e (estimated e s) ++ disarm_events
       ++ [Printf tipover_message] ++ idle_trace e)
  else if runs_control e s then
    (result (control_march e (gated e s)),
     final (control_march e (gated e s)),
     gate_trace e (estimated e s) ++ trace (control_march e (gated e s)))
  else
    (0%Z, gated e s, gate_trace e (estimated e s) ++ idle_trace e).
Proof.
  assert (Hrc : runs_control e s
                = negb (tipped e) && negb (idle_gate e (gated e s))).
  { rewrite idle_gate_gated, negb_involutive. unfold runs_control.
    now rewrite !andb_assoc. }
  rewrite Hrc. rewrite <- (tipover_gated e s). clear Hrc.
  unfold feedback_controller. unfold bind at 1. rewrite state_estimation_run.
  unfold bind at 1. unfold get at 1. unfold bind at 1.
  unfold gated, gate_state, gate_trace.
  destruct (pre_disarm e (estimated e s)) eqn:Hp; unfold pre_disarm in Hp;
    rewrite Hp.
  - unfold bind at 1. rewrite disarm_controller_run. unfold modify at 1.
    unfold bind at 1. unfold get at 1. cbv zeta.
    destruct (tipover _) eqn:Ht.
    + unfold bind. rewrite disarm_controller_run. unfold emit.
      cbv beta iota zeta. rewrite set_motors_to_idle_run.
      unfold modify, ret, disarm_events.
      cbv beta iota zeta. cbn [app]. rewrite ?app_nil_r. reflexivity.
    + unfold idle_gate. cbn [negb andb].
      destruct (_ || _) eqn:Hi; cbn [negb].
      * unfold bind. rewrite set_motors_to_idle_run. unfold ret, disarm_events.
        cbv beta iota zeta. cbn [app]. rewrite ?app_nil_r. reflexivity.
      * destruct (control_march e _) as [[r s2] t2]. unfold disarm_events.
        cbn [app result final trace fst snd]. rewrite ?app_nil_r. reflexivity.
  - unfold ret at 1. unfold bind at 1. unfold get at 1. cbv zeta.
    destruct (tipover _) eqn:Ht.
    + unfold bind. rewrite disarm_controller_run. unfold emit.
      cbv beta iota zeta. rewrite set_motors_to_idle_run.
      unfold modify, ret, disarm_events.
      cbv beta iota zeta. cbn [app]. rewrite ?app_nil_r. reflexivity.
    + unfold idle_gate. cbn [negb andb].
      destruct (_ || _) eqn:Hi; cbn [negb].
      * unfold bind. rewrite set_motors_to_idle_run. unfold ret.
        cbv beta iota zeta. cbn [app]. rewrite ?app_nil_r. reflexivity.
      * destruct (control_march e _) as [[r s2] t2].
        cbn [app result final trace fst snd]. rewrite ?app_nil_r. reflexivity.
Qed.

Lemma gate_trace_silent e s :
  esc_commands (gate_trace e s) = [] /\ mixer_calls (gate_trace e s) = []
  /\ log_entries (gate_trace e s) = [].
Proof. unfold gate_trace. destruct (pre_disarm e s); repeat split. Qed.

Lemma idle_trace_commands e :
  (num_rotors (set e) <= 8)%Z ->
  esc_commands (idle_trace e) = idle_commands (num_rotors (set e)).
Proof.
  intro Hn. unfold idle_trace, idle_commands.
  destruct (8 <? num_rotors (set e))%Z eqn:H8; [apply Z.ltb_lt in H8; lia|].
  induction (int_range 1 (num_rotors (set e))) as [|i l IH]; [reflexivity|].
  cbn. now rewrite IH.
Qed.

Lemma idle_trace_silent e :
  mixer_calls (idle_trace e) = [] /\ log_entries (idle_trace e) = []
  /\ Forall (fun c => snd c = IDLE_PULSE) (esc_commands (idle_trace e)).
Proof.
  unfold idle_trace.
  destruct (8 <? num_rotors (set e))%Z; [repeat split; constructor|].
  induction (int_range 1 (num_rotors (set e))) as [|i l IH];
    [repeat split; constructor|].
  destruct IH as [Hm [Hl He]]. cbn. repeat split; try assumption.
  constructor; [reflexivity | assumption].
Qed.

(** ** The output loop *)

Lemma state_eta (s : state) : with_cs (cs_with_m (m (cs s)) (cs s)) s = s.
Proof. destruct s as [? ? ? ? ? ? ? ? c]; destruct c; reflexivity. Qed.

Lemma send_motors_run idx : forall mot s,
  send_motors idx mot s
  = (saturated idx mot,
     with_cs (cs_with_m (stored idx mot (m (cs s))) (cs s)) s,
     map esc_event (sent idx mot)).
Proof.
  induction idx as [|i rest IH]; intros mot s.
  - cbn [send_motors sent stored saturated map]. rewrite state_eta. reflexivity.
  - cbn [send_motors sent stored saturated]. unfold bind, modify, emit.
    rewrite IH. reflexivity.
Qed.

(** The in-place saturation of cell [i] is read by no later round of the
    loop: every round reads its own cell. *)
Lemma sent_values idx : forall mot,
  NoDup (map Z.to_nat idx) ->
  sent idx mot
  = map (fun i => ((i + 1)%Z, saturate_double (nth (Z.to_nat i) mot 0) 0 1)) idx.
Proof.
  induction idx as [|i rest IH]; intros mot Hnd; [reflexivity|].
  cbn [map] in Hnd. inversion Hnd as [|? ? Hi Hrest]; subst.
  cbn [sent map]. f_equal. rewrite (IH _ Hrest).
  apply map_ext_in. intros j Hj. f_equal. f_equal.
  apply nth_array_set_other. intro Heq. apply Hi.
  rewrite <- Heq. apply in_map. exact Hj.
Qed.

Lemma stored_untouched idx : forall mot ms k,
  ~ In k (map Z.to_nat idx) -> nth k (stored idx mot ms) 0 = nth k ms 0.
Proof.
  induction idx as [|i rest IH]; intros mot ms k Hk; [reflexivity|].
  cbn [stored]. cbn [map In] in Hk. rewrite IH by tauto.
  apply nth_array_set_other. intro Heq. apply Hk. left. congruence.
Qed.

(** [cs->m[i]] ends up holding [mot[i]] as it was before the loop. *)
Lemma stored_values idx : forall mot ms i,
  NoDup (map Z.to_nat idx) -> In i idx ->
  (Z.to_nat i < List.length ms)%nat ->
  nth (Z.to_nat i) (stored idx mot ms) 0 = nth (Z.to_nat i) mot 0.
Proof.
  induction idx as [|j rest IH]; intros mot ms i Hnd Hin Hlen; [contradiction|].
  cbn [map] in Hnd. inversion Hnd as [|? ? Hj Hrest]; subst.
  cbn [stored]. destruct Hin as [Heq | Hin].
  - subst j. rewrite stored_untouched by exact Hj.
    apply nth_array_set_same. exact Hlen.
  - rewrite (IH _ _ i Hrest Hin) by (rewrite array_set_length; exact Hlen).
    apply nth_array_set_other. intro Heq. apply Hj.
    rewrite <- Heq. apply in_map. exact Hin.
Qed.

Lemma rotor_indices_NoDup n : NoDup (map Z.to_nat (int_range 0 (n - 1))).
Proof.
  unfold int_range. rewrite map_map.
  rewrite (map_ext _ (fun k => k)) by (intro k; lia).
  rewrite map_id. apply seq_NoDup.
Qed.

(** ** The control march *)

Lemma control_march_trace e s :
  let mot := result (control_inputs e s) in
  let s1 := final (control_inputs e s) in
  let s2 := final (send_motors (int_range 0 (num_rotors (set e) - 1)) mot s1) in
  trace (control_march e s)
  = trace (control_inputs e s)
    ++ map esc_event (sent (int_range 0 (num_rotors (set e) - 1)) mot)
    ++ trace (add_log e s2).
Proof.
  cbv zeta. unfold control_march. rewrite !trace_bind.
  rewrite send_motors_run.
  cbn [trace final result fst snd modify ret]. rewrite !app_nil_r.
  reflexivity.
Qed.

Lemma control_march_esc e s :
  esc_commands (trace (control_march e s))
  = sent (int_range 0 (num_rotors (set e) - 1)) (result (control_inputs e s)).
Proof.
  rewrite control_march_trace. rewrite !esc_commands_app.
  destruct (control_inputs_quiet e s) as [_ Hq].
  destruct (mix_events_silent _ Hq) as [He _]. rewrite He.
  rewrite esc_commands_esc_events.
  match goal with |- context [add_log e ?t] =>
    destruct (add_log_quiet e t) as [_ Hl] end.
  destruct (log_events_only _ Hl) as [_ He']. rewrite He'.
  rewrite app_nil_r. reflexivity.
Qed.

Lemma mixer_calls_esc_events l : mixer_calls (map esc_event l) = [].
Proof. induction l as [|c l IH]; [reflexivity | exact IH]. Qed.

Lemma control_march_mixer e s :
  mixer_calls (trace (control_march e s))
  = mixer_calls (trace (control_inputs e s)).
Proof.
  rewrite control_march_trace. rewrite !mixer_calls_app.
  rewrite mixer_calls_esc_events.
  match goal with |- context [add_log e ?t] =>
    destruct (add_log_quiet e t) as [_ Hl] end.
  destruct (log_events_only _ Hl) as [Hm _]. rewrite Hm.
  rewrite !app_nil_r. reflexivity.
Qed.

Lemma control_march_final e s :
  let mot := result (control_inputs e s) in
  let s1 := final (control_inputs e s) in
  let s2 := final (send_motors (int_range 0 (num_rotors (set e) - 1)) mot s1) in
  let s3 := final (add_log e s2) in
  final (control_march e s)
  = with_loop_index ((loop_index s3 + 1) mod uint64_max)%Z s3.
Proof.
  cbv zeta. unfold control_march. rewrite !final_bind. reflexivity.
Qed.

Lemma control_march_loop_index e s :
  loop_index (final (control_march e s))
  = ((loop_index s + 1) mod uint64_max)%Z.
Proof.
  rewrite control_march_final. cbn [loop_index with_loop_index].
  match goal with |- context [add_log e ?t] =>
    destruct (add_log_quiet e t) as [Hl _] end.
  match goal with |- context [send_motors ?i ?mo ?t] =>
    destruct (send_motors_quiet i mo t) as [Hs _] end.
  destruct (control_inputs_quiet e s) as [Hc _].
  unfold inputs_view in Hc.
  cbv beta in Hl, Hs. congruence.
Qed.

Lemma control_march_view e s :
  control_view (final (control_march e s))
  = control_view (final (control_inputs e s)).
Proof.
  rewrite control_march_final.
  match goal with |- context [add_log e ?t] =>
    destruct (add_log_quiet e t) as [Hl _] end.
  match goal with |- context [send_motors ?i ?mo ?t] =>
    destruct (send_motors_quiet i mo t) as [Hs _] end.
  cbv beta in Hl, Hs.
  transitivity (control_view
    (final (add_log e (final (send_motors (int_range 0 (num_rotors (set e) - 1))
       (result (control_inputs e s)) (final (control_inputs e s))))))).
  - reflexivity.
  - congruence.
Qed.

Lemma control_march_m e s :
  m (cs (final (control_march e s)))
  = stored (int_range 0 (num_rotors (set e) - 1))
           (result (control_inputs e s)) (m (cs s)).
Proof.
  rewrite control_march_final. cbn [cs with_loop_index].
  match goal with |- context [add_log e ?t] =>
    destruct (add_log_quiet e t) as [Hl _] end.
  apply (f_equal snd) in Hl. cbn [snd] in Hl. rewrite Hl.
  rewrite send_motors_run. cbn [final fst snd cs with_cs m cs_with_m].
  destruct (control_inputs_quiet e s) as [Hc _].
  apply (f_equal (fun v => snd (fst (fst (fst (fst v)))))) in Hc.
  cbn [inputs_view fst snd] in Hc. rewrite Hc. reflexivity.
Qed.

(** ** The controllers *)

Lemma throttle_controller_quiet mot :
  quiet (fun s => (inputs_view s, (D_roll s, D_pitch s, D_yaw s)))
        main_axis_event (throttle_controller mot).
Proof.
  unfold throttle_controller, call_add_mixed_input. quiet_auto.
Qed.

Lemma rpy_controllers_quiet e mot :
  quiet inputs_view main_axis_event (rpy_controllers e mot).
Proof.
  unfold rpy_controllers, roll_controller, pitch_controller, yaw_controller,
    call_add_mixed_input.
  quiet_auto.
Qed.

Lemma lateral_inputs_quiet mot :
  quiet (fun s => (inputs_view s, (D_roll s, D_pitch s, D_yaw s)))
        mix_event (lateral_inputs mot).
Proof. unfold lateral_inputs, call_add_mixed_input. quiet_auto. Qed.

(** The three controllers, each as one step. *)
Lemma roll_controller_run e mot s :
  exists d y,
    roll_controller e mot s
    = (add_mixed_input y VEC_ROLL mot, with_u VEC_ROLL y (with_D_roll d s),
       [AddMixedInput y VEC_ROLL])
    /\ gain d = scheduled_gain e s (D_roll_gain_orig s).
Proof.
  unfold roll_controller, call_add_mixed_input, bind, get, modify, emit, ret.
  cbv beta iota zeta. 
  eexists; eexists; split; [reflexivity | reflexivity].
Qed.


Lemma pitch_controller_run e mot s :
  exists d y,
    pitch_controller e mot s
    = (add_mixed_input y VEC_PITCH mot, with_u VEC_PITCH y (with_D_pitch d s),
       [AddMixedInput y VEC_PITCH])
    /\ gain d = scheduled_gain e s (D_pitch_gain_orig s).
Proof.
  unfold pitch_controller, call_add_mixed_input, bind, get, modify, emit, ret.
  cbv beta iota zeta.
  eexists; eexists; split; reflexivity.
Qed.

Lemma yaw_controller_run e mot s :
  exists d y,
    yaw_controller e mot s
    = (add_mixed_input y VEC_YAW mot,
       with_u VEC_YAW y
         (with_D_yaw d
            (with_sp (sp_with_yaw (sp_yaw (sp s) + DT * yaw_rate (sp s)) (sp s)) s)),
       [AddMixedInput y VEC_YAW])
    /\ gain d = scheduled_gain e s (D_yaw_gain_orig s).
Proof.
  unfold yaw_controller, call_add_mixed_input, bind, get, modify, emit, ret.
  cbv beta iota zeta.
  eexists; eexists; split; reflexivity.
Qed.

Lemma rpy_controllers_gains e mot s :
  en_rpy_ctrl (sp s) = true ->
  let s' := final (rpy_controllers e mot s) in
  gain (D_roll s') = scheduled_gain e s (D_roll_gain_orig s)
  /\ gain (D_pitch s') = scheduled_gain e s (D_pitch_gain_orig s)
  /\ gain (D_yaw s') = scheduled_gain e s (D_yaw_gain_orig s).
Proof.
  intros Hen. cbv zeta. unfold rpy_controllers.
  rewrite final_bind. cbn [get result final fst snd]. rewrite Hen.
  rewrite !final_bind.
  destruct (roll_controller_run e mot s) as [d1 [y1 [H1 G1]]].
  rewrite H1. cbn [result final fst snd].
  match goal with |- context [pitch_controller e ?mo ?t] =>
    destruct (pitch_controller_run e mo t) as [d2 [y2 [H2 G2]]] end.
  rewrite H2. cbn [result final fst snd].
  match goal with |- context [yaw_controller e ?mo ?t] =>
    destruct (yaw_controller_run e mo t) as [d3 [y3 [H3 G3]]] end.
  rewrite H3. cbn [result final fst snd].
  repeat split; [exact G1 | exact G2 | exact G3].
Qed.

Lemma lateral_inputs_run mot s :
  en_6dof (sp s) = true ->
  let wy := limit_window (check_channel_saturation VEC_Y mot) MAX_X_COMPONENT in
  let uy := saturate_double (X_throttle (sp s)) (fst wy) (snd wy) in
  let mot1 := add_mixed_input uy VEC_Y mot in
  let wx := limit_window (check_channel_saturation VEC_X mot1) MAX_Y_COMPONENT in
  let ux := saturate_double (Y_throttle (sp s)) (fst wx) (snd wx) in
  lateral_inputs mot s
  = (add_mixed_input ux VEC_Y mot1,
     with_u VEC_X ux (with_u VEC_X (Y_throttle (sp s))
       (with_u VEC_Y uy (with_u VEC_Y (X_throttle (sp s)) s))),
     [AddMixedInput uy VEC_Y; AddMixedInput ux VEC_Y]).
Proof.
  intro Hen. cbv zeta. unfold lateral_inputs.
  unfold bind at 1. unfold get at 1. cbv beta iota. rewrite Hen.
  unfold call_add_mixed_input, bind, get, modify, emit, ret.
  cbv beta iota zeta.
  reflexivity.
Qed.

Lemma rpy_controllers_off e mot s :
  en_rpy_ctrl (sp s) = false ->
  let s' := final (rpy_controllers e mot s) in
  (D_roll s', D_pitch s', D_yaw s') = (D_roll s, D_pitch s, D_yaw s).
Proof.
  intros Hen. cbv zeta. unfold rpy_controllers.
  rewrite final_bind. cbn [get result final fst snd]. rewrite Hen.
  reflexivity.
Qed.

Lemma main_axis_events_calls t :
  Forall main_axis_event t ->
  Forall (fun c => snd c <> VEC_X /\ snd c <> VEC_Y) (mixer_calls t).
Proof.
  induction 1 as [|ev t Hev _ IH]; [constructor|].
  destruct ev; cbn in *; try contradiction. constructor; assumption.
Qed.

(** ** The tick as a whole *)

Lemma rc_state_eqb_eq a b : rc_state_eqb a b = true <-> a = b.
Proof. destruct a, b; split; intro H; try discriminate H; reflexivity. Qed.

(** [runs_control] in words: no tipover, RUNNING at both calls of
    [get_state()], and ARMED at the start. *)
Lemma runs_control_true e s :
  runs_control e s = true <->
  tipped e = false /\ (forall c, get_state e c = RUNNING)
  /\ arm_state s = ARMED.
Proof.
  unfold runs_control. rewrite !andb_true_iff, negb_true_iff,
    !rc_state_eqb_eq. split.
  - intros [[[Ht H1] H2] Ha]. repeat split; [exact Ht | |].
    + intros []; assumption.
    + destruct (arm_state s); try discriminate; reflexivity.
  - intros [Ht [Hr Ha]]. rewrite Ha. repeat split; auto.
Qed.

Lemma runs_control_false e s :
  arm_state s = DISARMED \/ get_state e disarm_test <> RUNNING
  \/ get_state e idle_test <> RUNNING ->
  runs_control e s = false.
Proof.
  intro H. destruct (runs_control e s) eqn:Hrc; [|reflexivity].
  apply runs_control_true in Hrc. destruct Hrc as [_ [Hr Ha]].
  destruct H as [H | [H | H]]; [congruence | |]; exfalso; apply H, Hr.
Qed.

Lemma tipped_true e :
  (TIP_ANGLE <? fabs (fusedTaitBryan (imu e) VEC3_Y)) = true
  \/ (TIP_ANGLE <? fabs (fusedTaitBryan (imu e) VEC3_X)) = true ->
  tipped e = true.
Proof.
  unfold tipped. rewrite orb_true_iff. tauto.
Qed.

Lemma tick_control e s :
  runs_control e s = true ->
  feedback_controller e s
  = (result (control_march e (gated e s)),
     final (control_march e (gated e s)),
     gate_trace e (estimated e s) ++ trace (control_march e (gated e s))).
Proof.
  intro H. rewrite feedback_controller_run.
  destruct (proj1 (runs_control_true e s) H) as [Ht _].
  rewrite Ht, H. reflexivity.
Qed.

Lemma tick_early e s :
  runs_control e s = false ->
  let r := feedback_controller e s in
  result r = 0%Z
  /\ cs (final r) = cs (estimated e s)
  /\ loop_index (final r) = loop_index s
  /\ sp (final r) = sp s
  /\ u (final r) = u s
  /\ (D_roll (final r), D_pitch (final r), D_yaw (final r))
     = (D_roll s, D_pitch s, D_yaw s)
  /\ mixer_calls (trace r) = []
  /\ log_entries (trace r) = []
  /\ Forall (fun c => snd c = IDLE_PULSE) (esc_commands (trace r)).
Proof.
  intro H. cbv zeta. rewrite feedback_controller_run. rewrite H.
  destruct (gated_frame e s) as [Hc [Hl [Hs [Hu [Hd Hg]]]]].
  destruct (gate_trace_silent e (estimated e s)) as [Ge [Gm Gl]].
  destruct (idle_trace_silent e) as [Im [Il Ie]].
  destruct (tipped e);
    cbn [result final trace fst snd cs loop_index sp u D_roll D_pitch D_yaw
         with_last_arm_state with_arm_state];
    rewrite ?mixer_calls_app, ?log_entries_app, ?esc_commands_app,
      ?Ge, ?Gm, ?Gl, ?Im, ?Il;
    cbn [app disarm_events mixer_calls log_entries esc_commands];
    rewrite ?Im, ?Il; repeat split; assumption.
Qed.

(** The controllers start from the state the gates leave; what they see
    of it is what the caller's state held. *)
Lemma control_inputs_start e s :
  v_batt (cs (gated e s)) = v_batt (cs s)
  /\ m (cs (gated e s)) = m (cs s)
  /\ sp (gated e s) = sp s
  /\ (D_roll_gain_orig (gated e s), D_pitch_gain_orig (gated e s),
      D_yaw_gain_orig (gated e s))
     = (D_roll_gain_orig s, D_pitch_gain_orig s, D_yaw_gain_orig s).
Proof.
  destruct (gated_frame e s) as [Hc [_ [Hs [_ [_ Hg]]]]].
  destruct (estimated_frame e s) as [_ [_ [Hv [Hm _]]]].
  rewrite Hc. repeat split; assumption.
Qed.

Lemma control_view_parts a b :
  control_view a = control_view b ->
  arm_state a = arm_state b
  /\ (D_roll a, D_pitch a, D_yaw a) = (D_roll b, D_pitch b, D_yaw b)
  /\ u a = u b /\ sp a = sp b.
Proof.
  unfold control_view. intro H. injection H. intros. subst.
  repeat split; congruence.
Qed.

Lemma inputs_view_parts a b :
  inputs_view a = inputs_view b ->
  arm_state a = arm_state b /\ cs a = cs b /\ loop_index a = loop_index b
  /\ (D_roll_gain_orig a, D_pitch_gain_orig a, D_yaw_gain_orig a)
     = (D_roll_gain_orig b, D_pitch_gain_orig b, D_yaw_gain_orig b)
  /\ en_rpy_ctrl (sp a) = en_rpy_ctrl (sp b)
  /\ en_6dof (sp a) = en_6dof (sp b)
  /\ X_throttle (sp a) = X_throttle (sp b)
  /\ Y_throttle (sp a) = Y_throttle (sp b).
Proof.
  unfold inputs_view. intro H. injection H. intros.
  repeat split; congruence.
Qed.

Lemma tick_gains e s :
  runs_control e s = true -> en_rpy_ctrl (sp s) = true ->
  let s' := final (feedback_controller e s) in
  gain (D_roll s') = scheduled_gain e s (D_roll_gain_orig s)
  /\ gain (D_pitch s') = scheduled_gain e s (D_pitch_gain_orig s)
  /\ gain (D_yaw s') = scheduled_gain e s (D_yaw_gain_orig s).
Proof.
  intros Hrc Hen. cbv zeta. rewrite (tick_control e s Hrc). cbn [final fst snd].
  destruct (control_view_parts _ _ (control_march_view e (gated e s)))
    as [_ [Hv _]].
  injection Hv as Hr Hp Hy. rewrite Hr, Hp, Hy. clear Hr Hp Hy.
  unfold control_inputs. rewrite !final_bind.
  match goal with |- context [lateral_inputs ?mo ?t] =>
    destruct (lateral_inputs_quiet mo t) as [Hl _] end.
  apply (f_equal snd) in Hl. cbn [snd] in Hl.
  injection Hl as Hr Hp Hy. rewrite Hr, Hp, Hy. clear Hr Hp Hy.
  match goal with |- context [throttle_controller ?mo ?t] =>
    destruct (throttle_controller_quiet mo t) as [Ht _];
    set (s1 := final (throttle_controller mo t)) in * end.
  apply (f_equal fst) in Ht. cbn [fst] in Ht.
  destruct (inputs_view_parts _ _ Ht) as [_ [Hcs [_ [Hg1 [Hrpy _]]]]].
  destruct (control_inputs_start e s) as [Hvb [_ [Hsp Hg]]].
  assert (Hen1 : en_rpy_ctrl (sp s1) = true) by (rewrite Hrpy, Hsp; exact Hen).
  destruct (rpy_controllers_gains e (result (throttle_controller
    (repeat 0 (Z.to_nat (num_rotors (set e)))) (gated e s))) s1 Hen1)
    as [G1 [G2 G3]].
  rewrite G1, G2, G3. unfold scheduled_gain.
  rewrite Hcs, Hvb. repeat split; congruence.
Qed.

(** ** Idle while disarmed or not running *)

(** C1.  A tick that starts DISARMED, or in which [get_state()] answers
    other than RUNNING at either of its two calls, sends nothing to the
    ESCs but the idle pulse -0.1, and, the settings holding at most eight
    rotors as the data model has it, sends it once to each channel
    1..num_rotors, in that order.  Whether the tick also detects a tipover
    makes no difference. *)
Theorem idle_pulse_when_disarmed_or_not_running e s :
  arm_state s = DISARMED \/ get_state e disarm_test <> RUNNING
  \/ get_state e idle_test <> RUNNING ->
  let cmds := esc_commands (trace (feedback_controller e s)) in
  Forall (fun c => snd c = IDLE_PULSE) cmds
  /\ ((num_rotors (set e) <= 8)%Z ->
      cmds = idle_commands (num_rotors (set e))).
Proof.
  intros Hd. cbv zeta. pose proof (runs_control_false e s Hd) as Hrc.
  split.
  - destruct (tick_early e s Hrc) as [_ [_ [_ [_ [_ [_ [_ [_ H]]]]]]]].
    exact H.
  - intro Hn. rewrite feedback_controller_run. rewrite Hrc.
    destruct (gate_trace_silent e (estimated e s)) as [Ge _].
    destruct (tipped e); cbn [trace snd]; rewrite !esc_commands_app, Ge;
      cbn [app disarm_events esc_commands]; apply idle_trace_commands;
      exact Hn.
Qed.

(** ** Tipover *)

(** C2.  When the roll or the pitch the tick has just read exceeds
    TIP_ANGLE in magnitude (the test of the code,
    [fabs(cs->roll)>TIP_ANGLE || fabs(cs->pitch)>TIP_ANGLE], holds), the
    tick ends DISARMED, the ESCs get the idle
    pulse (one per channel, at most eight rotors), the tick returns 0, and
    no control phase runs: no mixer call, no log entry, the loop counter,
    the compensators, the setpoint and the control vector are as they
    were. *)
Theorem tipover_disarms_and_idles e s :
  (TIP_ANGLE <? fabs (fusedTaitBryan (imu e) VEC3_Y)) = true
  \/ (TIP_ANGLE <? fabs (fusedTaitBryan (imu e) VEC3_X)) = true ->
  (num_rotors (set e) <= 8)%Z ->
  let r := feedback_controller e s in
  roll (cs (final r)) = fusedTaitBryan (imu e) VEC3_Y
  /\ pitch (cs (final r)) = fusedTaitBryan (imu e) VEC3_X
  /\ result r = 0%Z
  /\ arm_state (final r) = DISARMED
  /\ esc_commands (trace r) = idle_commands (num_rotors (set e))
  /\ mixer_calls (trace r) = []
  /\ log_entries (trace r) = []
  /\ loop_index (final r) = loop_index s
  /\ (D_roll (final r), D_pitch (final r), D_yaw (final r))
     = (D_roll s, D_pitch s, D_yaw s)
  /\ sp (final r) = sp s
  /\ u (final r) = u s.
Proof.
  intros Htip Hn. cbv zeta. rewrite feedback_controller_run.
  rewrite (tipped_true e Htip).
  destruct (gated_frame e s) as [Hc [Hl [Hs [Hu [Hd _]]]]].
  destruct (estimated_frame e s) as [Hr [Hp _]].
  destruct (gate_trace_silent e (estimated e s)) as [Ge [Gm Gl]].
  destruct (idle_trace_silent e) as [Im [Il _]].
  cbn [result final trace fst snd cs loop_index sp u D_roll D_pitch D_yaw
       arm_state with_last_arm_state with_arm_state].
  rewrite !mixer_calls_app, !log_entries_app, !esc_commands_app, Ge, Gm, Gl.
  cbn [app disarm_events mixer_calls log_entries esc_commands].
  rewrite Im, Il, Hc, Hr, Hp, (idle_trace_commands e Hn).
  repeat split; assumption.
Qed.

(** ** The output loop *)

Lemma tick_outputs e s :
  runs_control e s = true ->
  let r := feedback_controller e s in
  esc_commands (trace r)
  = map (fun i => ((i + 1)%Z,
                   saturate_double (nth (Z.to_nat i) (mixed e s) 0) 0 1))
        (int_range 0 (num_rotors (set e) - 1))
  /\ m (cs (final r))
     = stored (int_range 0 (num_rotors (set e) - 1)) (mixed e s) (m (cs s)).
Proof.
  intro Hrc. cbv zeta. rewrite (tick_control e s Hrc). cbn [trace final fst snd].
  destruct (gate_trace_silent e (estimated e s)) as [Ge _].
  rewrite esc_commands_app, Ge, control_march_esc, control_march_m.
  cbn [app]. destruct (control_inputs_start e s) as [_ [Hm _]]. rewrite Hm.
  split; [|reflexivity].
  apply sent_values. apply rotor_indices_NoDup.
Qed.

(** C6, as the code has it.  On a tick that runs the armed control path,
    [cs->m[i]], for every rotor i held by the array, is the motor value as
    mixed, before the final saturation, and the value sent to channel i+1
    is that value saturated to [0, 1].  A tick that returns early does not
    write [cs->m]. *)
Theorem core_motors_hold_unsaturated_mix e s :
  let r := feedback_controller e s in
  (runs_control e s = false -> m (cs (final r)) = m (cs s))
  /\ (runs_control e s = true ->
      forall i, (0 <= i < num_rotors (set e))%Z ->
        (Z.to_nat i < List.length (m (cs s)))%nat ->
        nth (Z.to_nat i) (m (cs (final r))) 0 = nth (Z.to_nat i) (mixed e s) 0
        /\ In ((i + 1)%Z,
               saturate_double (nth (Z.to_nat i) (m (cs (final r))) 0) 0 1)
              (esc_commands (trace r))).
Proof.
  cbv zeta. split.
  - intro Hrc. destruct (tick_early e s Hrc) as [_ [Hc _]]. rewrite Hc.
    destruct (estimated_frame e s) as [_ [_ [_ [Hm _]]]]. exact Hm.
  - intros Hrc i Hi Hlen.
    destruct (tick_outputs e s Hrc) as [Hesc Hm].
    assert (Hin : In i (int_range 0 (num_rotors (set e) - 1)))
      by (apply int_range_In; lia).
    assert (Hv : nth (Z.to_nat i) (m (cs (final (feedback_controller e s)))) 0
                 = nth (Z.to_nat i) (mixed e s) 0).
    { rewrite Hm. apply stored_values;
        [apply rotor_indices_NoDup | exact Hin | exact Hlen]. }
    split; [exact Hv|]. rewrite Hesc, Hv.
    apply (in_map (fun i => ((i + 1)%Z,
             saturate_double (nth (Z.to_nat i) (mixed e s) 0) 0 1))).
    exact Hin.
Qed.

(** ** The loop counter *)

(** C7, as the code has it.  [loop_index] goes up by one, as a 64-bit
    counter, on a tick that runs the armed control path to its end; a tick
    that returns early (tipover, DISARMED, not RUNNING) leaves it as it
    was. *)
Theorem loop_index_counts_control_ticks e s :
  loop_index (final (feedback_controller e s))
  = if runs_control e s
    then ((loop_index s + 1) mod uint64_max)%Z
    else loop_index s.
Proof.
  destruct (runs_control e s) eqn:Hrc.
  - rewrite (tick_control e s Hrc). cbn [final fst snd].
    rewrite control_march_loop_index.
    destruct (gated_frame e s) as [_ [Hl _]]. rewrite Hl. reflexivity.
  - destruct (tick_early e s Hrc) as [_ [_ [Hl _]]]. exact Hl.
Qed.

(** ** Gain scheduling *)

(** The gains of a tick that does not run the three controllers are the
    gains it started with. *)
Lemma gains_kept_outside_rpy e s :
  runs_control e s = false \/ en_rpy_ctrl (sp s) = false ->
  let s' := final (feedback_controller e s) in
  (D_roll s', D_pitch s', D_yaw s') = (D_roll s, D_pitch s, D_yaw s).
Proof.
  cbv zeta. destruct (runs_control e s) eqn:Hrc.
  - intros [H | Hen]; [discriminate|].
    rewrite (tick_control e s Hrc). cbn [final fst snd].
    destruct (control_view_parts _ _ (control_march_view e (gated e s)))
      as [_ [Hv _]].
    rewrite Hv. unfold control_inputs. rewrite !final_bind.
    match goal with |- context [lateral_inputs ?mo ?t] =>
      destruct (lateral_inputs_quiet mo t) as [Hl _] end.
    apply (f_equal snd) in Hl. cbn [snd] in Hl. rewrite Hl.
    match goal with |- context [throttle_controller ?mo ?t] =>
      destruct (throttle_controller_quiet mo t) as [Ht _];
      set (s1 := final (throttle_controller mo t)) in * end.
    pose proof (f_equal snd Ht) as Hf. cbn [snd] in Hf.
    apply (f_equal fst) in Ht. cbn [fst] in Ht.
    destruct (inputs_view_parts _ _ Ht) as [_ [_ [_ [_ [Hrpy _]]]]].
    destruct (control_inputs_start e s) as [_ [_ [Hsp _]]].
    assert (Hen1 : en_rpy_ctrl (sp s1) = false) by (rewrite Hrpy, Hsp; exact Hen).
    rewrite (rpy_controllers_off e _ s1 Hen1), Hf.
    destruct (gated_frame e s) as [_ [_ [_ [_ [Hd _]]]]]. exact Hd.
  - intros _. destruct (tick_early e s Hrc) as [_ [_ [_ [_ [_ [Hd _]]]]]].
    exact Hd.
Qed.

(** C8, as the code has it.  The gains are scheduled inside the tick, by
    the roll, pitch and yaw controllers: on a tick that runs the armed
    control path with [en_rpy_ctrl] set, each of the three gains the tick
    leaves is [gain_orig * v_nominal / v_batt] as the arithmetic of
    [double] computes it, the product first and the quotient next, with
    the battery voltage the tick started with.  A tick that returns early
    or has [en_rpy_ctrl] off leaves the three compensators, gains
    included, as they were. *)
Theorem gain_scheduling_in_tick e s :
  let s' := final (feedback_controller e s) in
  (runs_control e s = true -> en_rpy_ctrl (sp s) = true ->
   gain (D_roll s')
   = D_roll_gain_orig s * v_nominal (set e) / v_batt (cs s)
   /\ gain (D_pitch s')
      = D_pitch_gain_orig s * v_nominal (set e) / v_batt (cs s)
   /\ gain (D_yaw s')
      = D_yaw_gain_orig s * v_nominal (set e) / v_batt (cs s))
  /\ (runs_control e s = false \/ en_rpy_ctrl (sp s) = false ->
      D_roll s' = D_roll s /\ D_pitch s' = D_pitch s /\ D_yaw s' = D_yaw s).
Proof.
  cbv zeta. split.
  - intros Hrc Hen. exact (tick_gains e s Hrc Hen).
  - intro H. pose proof (gains_kept_outside_rpy e s H) as K. cbv zeta in K.
    split; [exact (f_equal (fun t => fst (fst t)) K)|].
    split; [exact (f_equal (fun t => snd (fst t)) K) | exact (f_equal snd K)].
Qed.

(** ** Arming *)

Lemma arm_controller_run e s :
  arm_controller e s
  = match arm_state s with
    | ARMED =>
        ((-1)%Z, s,
         [Printf already_armed_warning])
    | DISARMED =>
        (0%Z, armed_state e s,
         (if enable_logging (set e) then [StartLogManager] else [])
         ++ [SetLed RED 0; SetLed GREEN 1])
    end.
Proof.
  unfold arm_controller. unfold bind at 1. unfold get at 1. cbv beta iota.
  destruct (arm_state s); cbn [arm_state_eqb].
  - destruct (enable_logging (set e)); reflexivity.
  - reflexivity.
Qed.

(** C9.  [arm_controller] on an ARMED controller prints a warning,
    changes nothing (no log start, no compensator reset, no LED call, the
    state is the state it got) and returns -1.  On a DISARMED controller
    it starts the log manager when logging is enabled, zeroes the
    controllers, switches red off and green on, in that order, sets the
    arm state to ARMED and returns 0. *)
Theorem arm_controller_cases e s :
  let r := arm_controller e s in
  match arm_state s with
  | ARMED =>
      result r = (-1)%Z
      /\ final r = s
      /\ trace r
         = [Printf already_armed_warning]
  | DISARMED =>
      result r = 0%Z
      /\ trace r
         = (if enable_logging (set e) then [StartLogManager] else [])
           ++ [SetLed RED 0; SetLed GREEN 1]
      /\ final r = armed_state e s
      /\ arm_state (final r) = ARMED
      /\ (D_roll (final r), D_pitch (final r), D_yaw (final r))
         = (reset_filter (D_roll s), reset_filter (D_pitch s),
            reset_filter (D_yaw s))
      /\ num_yaw_spins (final r) = 0%Z
      /\ last_yaw (final r)
         = double_to_int (- fusedTaitBryan (imu e) VEC3_Z)
      /\ last_alt_ctrl_en (final r) = 0%Z
      /\ last_usr_thr (final r) = MIN_THRUST_COMPONENT
      /\ (sp (final r), cs (final r), loop_index (final r), u (final r))
         = (sp s, cs s, loop_index s, u s)
  end.
Proof.
  cbv zeta. rewrite arm_controller_run.
  destruct (arm_state s); repeat split.
Qed.

(** ** The lateral inputs *)

Lemma control_inputs_lateral e s :
  en_6dof (sp s) = true ->
  exists (mot : list double) (calls : list (double * channel)),
    let wy := limit_window (check_channel_saturation VEC_Y mot)
                           MAX_X_COMPONENT in
    let uy := saturate_double (X_throttle (sp s)) (fst wy) (snd wy) in
    let wx := limit_window
                (check_channel_saturation VEC_X (add_mixed_input uy VEC_Y mot))
                MAX_Y_COMPONENT in
    let ux := saturate_double (Y_throttle (sp s)) (fst wx) (snd wx) in
    let r := control_inputs e s in
    u (final r) VEC_Y = uy
    /\ u (final r) VEC_X = ux
    /\ mixer_calls (trace r) = calls ++ [(uy, VEC_Y); (ux, VEC_Y)]
    /\ Forall (fun c => snd c <> VEC_X /\ snd c <> VEC_Y) calls
    /\ result r = add_mixed_input ux VEC_Y (add_mixed_input uy VEC_Y mot).
Proof.
  intro Hen. unfold control_inputs.
  set (mot0 := repeat 0 (Z.to_nat (num_rotors (set e)))).
  destruct (throttle_controller_quiet mot0 s) as [Ht Htt].
  set (s1 := final (throttle_controller mot0 s)) in *.
  set (mot1 := result (throttle_controller mot0 s)).
  destruct (rpy_controllers_quiet e mot1 s1) as [Hr Hrt].
  set (s2 := final (rpy_controllers e mot1 s1)) in *.
  set (mot2 := result (rpy_controllers e mot1 s1)).
  apply (f_equal fst) in Ht. cbn [fst] in Ht.
  destruct (inputs_view_parts _ _ Ht) as [_ [_ [_ [_ [_ [H6 [HX HY]]]]]]].
  destruct (inputs_view_parts _ _ Hr) as [_ [_ [_ [_ [_ [H6' [HX' HY']]]]]]].
  assert (Hen2 : en_6dof (sp s2) = true) by congruence.
  exists mot2, (mixer_calls (trace (throttle_controller mot0 s))
                ++ mixer_calls (trace (rpy_controllers e mot1 s1))).
  cbv zeta. rewrite !final_bind, !trace_bind, !result_bind.
  fold s1 mot1. fold s2 mot2.
  rewrite (lateral_inputs_run mot2 s2 Hen2).
  cbn [final result trace fst snd].
  rewrite !mixer_calls_app. cbn [mixer_calls].
  rewrite <- HX, <- HX', <- HY, <- HY'.
  split; [reflexivity|]. split; [reflexivity|].
  split; [now rewrite <- app_assoc|]. split; [|reflexivity].
  apply Forall_app. split; apply main_axis_events_calls; assumption.
Qed.

(** C10.  On a tick that runs the armed control path with [en_6dof] set,
    [u[VEC_Y]] is taken from [sp.X_throttle] and [u[VEC_X]] from
    [sp.Y_throttle] (each saturated to the window of its own channel), and
    both are added to the motor vector through mixer channel [VEC_Y]: they
    are the last two mixer calls of the tick, the calls before them are on
    neither lateral channel, and no mixer call of the tick is on channel
    [VEC_X]. *)
Theorem lateral_inputs_mixed_through_VEC_Y e s :
  runs_control e s = true -> en_6dof (sp s) = true ->
  exists (mot : list double) (calls : list (double * channel)),
    let wy := limit_window (check_channel_saturation VEC_Y mot)
                           MAX_X_COMPONENT in
    let uy := saturate_double (X_throttle (sp s)) (fst wy) (snd wy) in
    let wx := limit_window
                (check_channel_saturation VEC_X (add_mixed_input uy VEC_Y mot))
                MAX_Y_COMPONENT in
    let ux := saturate_double (Y_throttle (sp s)) (fst wx) (snd wx) in
    let r := feedback_controller e s in
    u (final r) VEC_Y = uy
    /\ u (final r) VEC_X = ux
    /\ mixer_calls (trace r) = calls ++ [(uy, VEC_Y); (ux, VEC_Y)]
    /\ Forall (fun c => snd c <> VEC_X /\ snd c <> VEC_Y) calls
    /\ mixed e s = add_mixed_input ux VEC_Y (add_mixed_input uy VEC_Y mot)
    /\ Forall (fun c => snd c <> VEC_X) (mixer_calls (trace r)).
Proof.
  intros Hrc Hen.
  destruct (control_inputs_start e s) as [_ [_ [Hsp _]]].
  assert (Hen' : en_6dof (sp (gated e s)) = true) by (rewrite Hsp; exact Hen).
  destruct (control_inputs_lateral e (gated e s) Hen')
    as [mot [calls H]]. cbv zeta in H. rewrite Hsp in H.
  destruct H as [Huy [Hux [Hcalls [Hpre Hres]]]].
  exists mot, calls. cbv zeta.
  rewrite (tick_control e s Hrc). cbn [final trace fst snd].
  destruct (control_view_parts _ _ (control_march_view e (gated e s)))
    as [_ [_ [Hu _]]].
  destruct (gate_trace_silent e (estimated e s)) as [_ [Gm _]].
  rewrite Hu, mixer_calls_app, Gm, control_march_mixer. cbn [app].
  repeat split; try assumption.
  destruct (control_inputs_quiet e (gated e s)) as [_ Hq].
  apply (mix_events_silent _ Hq).
Qed.

(** No tick whatever mixes anything through channel [VEC_X]. *)
Lemma no_mixer_call_on_VEC_X e s :
  Forall (fun c => snd c <> VEC_X)
         (mixer_calls (trace (feedback_controller e s))).
Proof.
  destruct (runs_control e s) eqn:Hrc.
  - rewrite (tick_control e s Hrc). cbn [trace snd].
    destruct (gate_trace_silent e (estimated e s)) as [_ [Gm _]].
    rewrite mixer_calls_app, Gm, control_march_mixer. cbn [app].
    destruct (control_inputs_quiet e (gated e s)) as [_ Hq].
    apply (mix_events_silent _ Hq).
  - destruct (tick_early e s Hrc) as [_ [_ [_ [_ [_ [_ [Hm _]]]]]]].
    rewrite Hm. constructor.
Qed.

(** ** The yaw estimator *)

(** The spin count moves by at most one per tick. *)
Lemma num_yaw_spins_step e s :
  let n' := num_yaw_spins (final (feedback_controller e s)) in
  n' = num_yaw_spins s \/ n' = (num_yaw_spins s + 1)%Z
  \/ n' = (num_yaw_spins s - 1)%Z.
Proof.
  cbv zeta.
  assert (Hn : num_yaw_spins (final (feedback_controller e s))
               = num_yaw_spins (estimated e s)).
  { rewrite feedback_controller_run.
    assert (Hg : num_yaw_spins (gated e s) = num_yaw_spins (estimated e s)).
    { unfold gated, gate_state. destruct (pre_disarm e (estimated e s));
        reflexivity. }
    destruct (tipped e); [exact Hg|].
    destruct (runs_control e s); [|exact Hg].
    cbn [final fst snd]. rewrite control_march_final.
    cbn [num_yaw_spins with_loop_index]. rewrite <- Hg.
    match goal with |- context [add_log e ?t] =>
      assert (Ha : num_yaw_spins (final (add_log e t)) = num_yaw_spins t)
        by (unfold add_log; destruct (enable_logging (set e)); reflexivity)
    end.
    rewrite Ha. rewrite send_motors_run. cbn [final fst snd].
    cbn [num_yaw_spins with_cs].
    assert (Hq : quiet num_yaw_spins mix_event (control_inputs e)).
    { unfold control_inputs, throttle_controller, rpy_controllers,
        roll_controller, pitch_controller, yaw_controller, lateral_inputs,
        call_add_mixed_input. quiet_auto. }
    apply Hq. }
  rewrite Hn. destruct (estimated_yaw e s) as [Hs _]. rewrite Hs.
  destruct (dlt _ _); [tauto|]. destruct (dlt _ _); tauto.
Qed.

(** What every tick publishes as yaw: the raw IMU yaw, not negated, plus
    the spin count times [TWO_PI]; [last_yaw] keeps its integer part. *)
Lemma yaw_published e s :
  let s' := final (feedback_controller e s) in
  yaw (cs s') = fusedTaitBryan (imu e) VEC3_Z
                + of_int (num_yaw_spins s') * TWO_PI
  /\ last_yaw s' = double_to_int (yaw (cs s')).
Proof.
  cbv zeta.
  assert (H : let s' := final (feedback_controller e s) in
              yaw (cs s') = yaw (cs (estimated e s))
              /\ num_yaw_spins s' = num_yaw_spins (estimated e s)
              /\ last_yaw s' = last_yaw (estimated e s)).
  { cbv zeta. rewrite feedback_controller_run.
    assert (Hg : yaw (cs (gated e s)) = yaw (cs (estimated e s))
                 /\ num_yaw_spins (gated e s) = num_yaw_spins (estimated e s)
                 /\ last_yaw (gated e s) = last_yaw (estimated e s)).
    { unfold gated, gate_state. destruct (pre_disarm e (estimated e s));
        repeat split. }
    destruct (tipped e); [exact Hg|].
    destruct (runs_control e s); [|exact Hg].
    cbn [final fst snd]. rewrite control_march_final.
    cbn [num_yaw_spins last_yaw cs with_loop_index].
    destruct Hg as [G1 [G2 G3]]. rewrite <- G1, <- G2, <- G3.
    match goal with |- context [add_log e ?t] =>
      assert (Ha : yaw (cs (final (add_log e t))) = yaw (cs t)
                   /\ num_yaw_spins (final (add_log e t)) = num_yaw_spins t
                   /\ last_yaw (final (add_log e t)) = last_yaw t)
        by (unfold add_log; destruct (enable_logging (set e)); repeat split)
    end.
    destruct Ha as [A1 [A2 A3]]. rewrite A1, A2, A3.
    rewrite send_motors_run. cbn [final fst snd].
    cbn [num_yaw_spins last_yaw cs yaw with_cs cs_with_m].
    assert (Hq : quiet (fun s => (yaw (cs s), num_yaw_spins s, last_yaw s))
                       mix_event (control_inputs e)).
    { unfold control_inputs, throttle_controller, rpy_controllers,
        roll_controller, pitch_controller, yaw_controller, lateral_inputs,
        call_add_mixed_input. quiet_auto. }
    destruct (Hq (gated e s)) as [Hv _]. cbv beta in Hv.
    repeat split; congruence. }
  cbv zeta in H. destruct H as [H1 [H2 H3]]. rewrite H1, H2, H3.
  destruct (estimated_yaw e s) as [Hs [Hy Hl]]. cbv zeta in *.
  rewrite Hl, Hy, Hs. split; reflexivity.
Qed.

(** * Further properties of the controller *)

(** ** What every tick does *)

Lemma control_march_result e s : result (control_march e s) = 0%Z.
Proof. unfold control_march. rewrite !result_bind. reflexivity. Qed.

(** X1.  [feedback_controller] returns 0 whatever happens in the tick,
    also when [set_motors_to_idle] refuses more than eight rotors and
    returns -1: its answer is dropped. *)
Theorem feedback_controller_returns_zero e s :
  result (feedback_controller e s) = 0%Z.
Proof.
  rewrite feedback_controller_run.
  destruct (tipped e); [reflexivity|].
  destruct (runs_control e s); [|reflexivity].
  apply control_march_result.
Qed.

Lemma arm_state_control_march e s :
  arm_state (final (control_march e s)) = arm_state s.
Proof.
  destruct (control_view_parts _ _ (control_march_view e s)) as [Ha _].
  rewrite Ha.
  destruct (inputs_view_parts _ _ (proj1 (control_inputs_quiet e s)))
    as [Hi _].
  exact Hi.
Qed.

(** The arm state a tick leaves: DISARMED after a tipover and when the
    first call of [get_state()] answers other than RUNNING, the arm state
    it started with otherwise -- also when the tick idles the motors
    because the second call answers other than RUNNING. *)
Lemma arm_state_after_tick e s :
  arm_state (final (feedback_controller e s))
  = if tipped e || negb (rc_state_eqb (get_state e disarm_test) RUNNING)
    then DISARMED else arm_state s.
Proof.
  rewrite feedback_controller_run.
  destruct (tipped e) eqn:Ht; [reflexivity|]. cbn [orb].
  destruct (runs_control e s) eqn:Hrc; cbn [final fst snd].
  - rewrite arm_state_control_march, arm_state_gated.
    destruct (rc_state_eqb (get_state e disarm_test) RUNNING); reflexivity.
  - rewrite arm_state_gated.
    destruct (rc_state_eqb (get_state e disarm_test) RUNNING); reflexivity.
Qed.

(** X2.  A tick never arms the controller.  It ends DISARMED when it
    detects a tipover or when the first call of [get_state()] (the one of
    the disarming test) answers other than RUNNING; in every other case it
    ends in the arm state it started with.  So it ends ARMED only if it
    started ARMED, it ends ARMED whenever it runs the control path, and a
    tick in which the run state leaves RUNNING between the two calls of
    [get_state()] idles the motors and stays ARMED. *)
Theorem tick_never_arms e s :
  let r := feedback_controller e s in
  arm_state (final r)
  = (if tipped e || negb (rc_state_eqb (get_state e disarm_test) RUNNING)
     then DISARMED else arm_state s)
  /\ (arm_state (final r) = ARMED -> arm_state s = ARMED)
  /\ (runs_control e s = true -> arm_state (final r) = ARMED)
  /\ (tipped e = false -> arm_state s = ARMED ->
      get_state e disarm_test = RUNNING -> get_state e idle_test <> RUNNING ->
      arm_state (final r) = ARMED
      /\ Forall (fun c => snd c = IDLE_PULSE) (esc_commands (trace r))
      /\ mixer_calls (trace r) = []).
Proof.
  cbv zeta. pose proof (arm_state_after_tick e s) as H.
  split; [exact H|]. split; [|split].
  - rewrite H. destruct (_ || _); [discriminate | tauto].
  - intro Hrc. apply runs_control_true in Hrc. destruct Hrc as [Ht [Hr Ha]].
    rewrite H, Ht, (Hr disarm_test), Ha. reflexivity.
  - intros Ht Ha H1 H2. rewrite H, Ht, H1, Ha. split; [reflexivity|].
    assert (Hrc : runs_control e s = false)
      by (apply runs_control_false; tauto).
    destruct (tick_early e s Hrc) as [_ [_ [_ [_ [_ [_ [Hm [_ He]]]]]]]].
    split; assumption.
Qed.

(** X3.  With more than eight rotors in the settings, a tick that returns
    early (tipover, DISARMED, not RUNNING) sends no ESC command at all,
    not even the idle pulse: it prints the error of
    [set_motors_to_idle] and still returns 0. *)
Theorem too_many_rotors_no_idle_pulse e s :
  (8 < num_rotors (set e))%Z ->
  runs_control e s = false ->
  let r := feedback_controller e s in
  esc_commands (trace r) = []
  /\ In too_many_rotors_error (printed (trace r))
  /\ result r = 0%Z.
Proof.
  intros Hn Hrc. cbv zeta. rewrite feedback_controller_run, Hrc.
  assert (Hi : idle_trace e = [Printf too_many_rotors_error]).
  { unfold idle_trace. apply Z.ltb_lt in Hn. rewrite Hn. reflexivity. }
  rewrite Hi. unfold gate_trace, disarm_events.
  destruct (tipped e), (pre_disarm e (estimated e s));
    cbn; repeat split; tauto.
Qed.

(** X4.  State estimation runs on every tick, armed or not: afterwards
    [cs->roll] is the IMU's Y angle and [cs->pitch] its X angle, and the
    tick writes neither the altitude nor the battery voltage. *)
Theorem state_estimated_on_every_tick e s :
  let s' := final (feedback_controller e s) in
  roll (cs s') = fusedTaitBryan (imu e) VEC3_Y
  /\ pitch (cs s') = fusedTaitBryan (imu e) VEC3_X
  /\ alt (cs s') = alt (cs s)
  /\ v_batt (cs s') = v_batt (cs s).
Proof.
  cbv zeta.
  assert (He : roll (cs (estimated e s)) = fusedTaitBryan (imu e) VEC3_Y
               /\ pitch (cs (estimated e s)) = fusedTaitBryan (imu e) VEC3_X
               /\ alt (cs (estimated e s)) = alt (cs s)
               /\ v_batt (cs (estimated e s)) = v_batt (cs s)).
  { unfold estimated, state_estimation, bind, get, modify, ret, final.
    cbv beta iota zeta.
    destruct (dlt _ _); [repeat split|]. destruct (dlt _ _); repeat split. }
  destruct (gated_frame e s) as [Hc _].
  destruct (runs_control e s) eqn:Hrc.
  - rewrite (tick_control e s Hrc). cbn [final fst snd].
    rewrite control_march_final. cbn [cs with_loop_index].
    match goal with |- context [add_log e ?t] =>
      assert (Ha : cs (final (add_log e t)) = cs t)
        by (unfold add_log; destruct (enable_logging (set e)); reflexivity)
    end.
    rewrite Ha, send_motors_run. cbn [final fst snd cs with_cs].
    cbn [roll pitch alt v_batt cs_with_m].
    destruct (inputs_view_parts _ _
                (proj1 (control_inputs_quiet e (gated e s))))
      as [_ [Hcs _]].
    rewrite Hcs, Hc. exact He.
  - destruct (tick_early e s Hrc) as [_ [Hcs _]]. rewrite Hcs. exact He.
Qed.

(** ** The control vector and the mixer *)

Lemma throttle_controller_run mot s :
  let v := saturate_double
             (Z_throttle (sp s) / (cos (roll (cs s)) * cos (pitch (cs s))))
             (- MIN_THRUST_COMPONENT) (- MAX_THRUST_COMPONENT) in
  throttle_controller mot s
  = (add_mixed_input v VEC_THR mot,
     with_last_alt_ctrl_en 0%Z
       (with_last_usr_thr (Z_throttle (sp s)) (with_u VEC_THR v s)),
     [AddMixedInput v VEC_THR]).
Proof.
  cbv zeta.
  unfold throttle_controller, call_add_mixed_input, bind, get, modify, emit, ret.
  cbv beta iota zeta. reflexivity.
Qed.

Lemma rpy_controllers_run_on e mot s :
  en_rpy_ctrl (sp s) = true ->
  exists d1 d2 d3 y1 y2 y3 mot',
    rpy_controllers e mot s
    = (mot',
       with_u VEC_YAW y3
         (with_D_yaw d3
            (with_sp (sp_with_yaw (sp_yaw (sp s) + DT * yaw_rate (sp s)) (sp s))
               (with_u VEC_PITCH y2
                  (with_D_pitch d2
                     (with_u VEC_ROLL y1 (with_D_roll d1 s)))))),
       [AddMixedInput y1 VEC_ROLL; AddMixedInput y2 VEC_PITCH;
        AddMixedInput y3 VEC_YAW]).
Proof.
  intro Hen. unfold rpy_controllers.
  unfold bind at 1. unfold get at 1. cbv beta iota. rewrite Hen.
  rewrite bind_run.
  destruct (roll_controller_run e mot s) as [d1 [y1 [H1 _]]].
  rewrite H1. cbn [result final trace fst snd].
  rewrite bind_run.
  match goal with |- context [pitch_controller e ?mo ?t] =>
    destruct (pitch_controller_run e mo t) as [d2 [y2 [H2 _]]] end.
  rewrite H2. cbn [result final trace fst snd].
  match goal with |- context [yaw_controller e ?mo ?t] =>
    destruct (yaw_controller_run e mo t) as [d3 [y3 [H3 _]]] end.
  rewrite H3. cbn [result final trace fst snd].
  exists d1, d2, d3, y1, y2, y3.
  eexists. cbn [app]. reflexivity.
Qed.

Lemma rpy_controllers_run_off e mot s :
  en_rpy_ctrl (sp s) = false ->
  rpy_controllers e mot s
  = (mot, with_u VEC_YAW 0 (with_u VEC_PITCH 0 (with_u VEC_ROLL 0 s)), []).
Proof.
  intro Hen. unfold rpy_controllers.
  unfold bind at 1. unfold get at 1. cbv beta iota. rewrite Hen.
  reflexivity.
Qed.

Lemma lateral_inputs_run_off mot s :
  en_6dof (sp s) = false ->
  lateral_inputs mot s
  = (mot, with_u VEC_X 0 (with_u VEC_Y 0 s), []).
Proof.
  intro Hen. unfold lateral_inputs.
  unfold bind at 1. unfold get at 1. cbv beta iota. rewrite Hen.
  reflexivity.
Qed.

Lemma control_inputs_summary e s :
  let r := control_inputs e s in
  u (final r) VEC_THR
  = saturate_double
      (Z_throttle (sp s) / (cos (roll (cs s)) * cos (pitch (cs s))))
      (- MIN_THRUST_COMPONENT) (- MAX_THRUST_COMPONENT)
  /\ mixer_calls (trace r) = calls_of s (u (final r))
  /\ sp (final r) = setpoint_after s
  /\ (en_rpy_ctrl (sp s) = false ->
      u (final r) VEC_ROLL = 0 /\ u (final r) VEC_PITCH = 0
      /\ u (final r) VEC_YAW = 0)
  /\ (en_6dof (sp s) = false ->
      u (final r) VEC_X = 0 /\ u (final r) VEC_Y = 0).
Proof.
  cbv zeta. unfold control_inputs, calls_of, setpoint_after.
  rewrite bind_run, throttle_controller_run.
  cbn [result final trace fst snd].
  set (v := saturate_double _ _ _).
  set (s1 := with_last_alt_ctrl_en 0%Z _).
  assert (Hsp1 : sp s1 = sp s) by reflexivity.
  rewrite bind_run.
  destruct (en_rpy_ctrl (sp s)) eqn:Hr.
  - destruct (rpy_controllers_run_on e
                (add_mixed_input v VEC_THR
                   (repeat 0 (Z.to_nat (num_rotors (set e))))) s1)
      as [d1 [d2 [d3 [y1 [y2 [y3 [mot' H]]]]]]];
      [rewrite Hsp1; exact Hr|].
    rewrite H. cbn [result final trace fst snd].
    set (s2 := with_u VEC_YAW y3 _).
    assert (Hsp2 : sp s2
                   = sp_with_yaw (sp_yaw (sp s) + DT * yaw_rate (sp s)) (sp s))
      by reflexivity.
    destruct (en_6dof (sp s)) eqn:H6.
    + rewrite (lateral_inputs_run mot' s2) by (rewrite Hsp2; exact H6).
      cbn [result final trace fst snd app mixer_calls].
      repeat split; try discriminate.
    + rewrite (lateral_inputs_run_off mot' s2) by (rewrite Hsp2; exact H6).
      cbn [result final trace fst snd app mixer_calls].
      repeat split; try discriminate.
  - rewrite (rpy_controllers_run_off e _ s1) by (rewrite Hsp1; exact Hr).
    cbn [result final trace fst snd].
    set (s2 := with_u VEC_YAW 0 _).
    assert (Hsp2 : sp s2 = sp s) by reflexivity.
    destruct (en_6dof (sp s)) eqn:H6.
    + rewrite (lateral_inputs_run _ s2) by (rewrite Hsp2; exact H6).
      cbn [result final trace fst snd app mixer_calls].
      repeat split; try discriminate.
    + rewrite (lateral_inputs_run_off _ s2) by (rewrite Hsp2; exact H6).
      cbn [result final trace fst snd app mixer_calls].
      repeat split; try discriminate.
Qed.

Lemma tick_control_vector e s :
  runs_control e s = true ->
  let r := feedback_controller e s in
  u (final r) = u (final (control_inputs e (gated e s)))
  /\ sp (final r) = sp (final (control_inputs e (gated e s)))
  /\ mixer_calls (trace r)
     = mixer_calls (trace (control_inputs e (gated e s))).
Proof.
  intro Hrc. cbv zeta. rewrite (tick_control e s Hrc).
  cbn [final trace fst snd].
  destruct (control_view_parts _ _ (control_march_view e (gated e s)))
    as [_ [_ [Hu Hsp]]].
  destruct (gate_trace_silent e (estimated e s)) as [_ [Gm _]].
  rewrite mixer_calls_app, Gm, control_march_mixer.
  repeat split; assumption.
Qed.

(** X5.  What the tick mixes is what it leaves in the control vector [u]:
    on a tick that runs the control path the calls of [add_mixed_input]
    are, in this order, throttle, then roll, pitch and yaw when
    [en_rpy_ctrl] is set, then the two lateral inputs (both on channel
    [VEC_Y]) when [en_6dof] is set, each carrying the entry of [u] the tick
    ends with. *)
Theorem mixer_calls_follow_control_vector e s :
  runs_control e s = true ->
  let r := feedback_controller e s in
  mixer_calls (trace r) = calls_of s (u (final r)).
Proof.
  intro Hrc. cbv zeta.
  destruct (tick_control_vector e s Hrc) as [Hu [_ Hm]].
  destruct (control_inputs_summary e (gated e s)) as [_ [Hc _]].
  destruct (control_inputs_start e s) as [_ [_ [Hsp _]]].
  rewrite Hm, Hu, Hc. unfold calls_of. rewrite Hsp. reflexivity.
Qed.

(** X6.  The axes that are switched off are zeroed in [u]: without
    [en_rpy_ctrl] a control tick leaves [u[VEC_ROLL]], [u[VEC_PITCH]] and
    [u[VEC_YAW]] at 0, without [en_6dof] it leaves [u[VEC_X]] and
    [u[VEC_Y]] at 0. *)
Theorem disabled_axes_are_zeroed e s :
  runs_control e s = true ->
  let u' := u (final (feedback_controller e s)) in
  (en_rpy_ctrl (sp s) = false ->
   u' VEC_ROLL = 0 /\ u' VEC_PITCH = 0 /\ u' VEC_YAW = 0)
  /\ (en_6dof (sp s) = false -> u' VEC_X = 0 /\ u' VEC_Y = 0).
Proof.
  intro Hrc. cbv zeta.
  destruct (tick_control_vector e s Hrc) as [Hu _].
  destruct (control_inputs_summary e (gated e s)) as [_ [_ [_ [Hr H6]]]].
  destruct (control_inputs_start e s) as [_ [_ [Hsp _]]].
  rewrite Hu, Hsp in *. split; assumption.
Qed.

(** X7.  The throttle is compensated for the tilt of this very tick: on a
    control tick [u[VEC_THR]] is [sp.Z_throttle] divided by the cosines of
    the roll and pitch the tick has just read from the IMU, saturated to
    [-MIN_THRUST_COMPONENT, -MAX_THRUST_COMPONENT]. *)
Theorem throttle_uses_fresh_attitude e s :
  runs_control e s = true ->
  u (final (feedback_controller e s)) VEC_THR
  = saturate_double
      (Z_throttle (sp s)
       / (cos (fusedTaitBryan (imu e) VEC3_Y)
          * cos (fusedTaitBryan (imu e) VEC3_X)))
      (- MIN_THRUST_COMPONENT) (- MAX_THRUST_COMPONENT).
Proof.
  intro Hrc.
  destruct (tick_control_vector e s Hrc) as [Hu _].
  destruct (control_inputs_summary e (gated e s)) as [Ht _].
  destruct (control_inputs_start e s) as [_ [_ [Hsp _]]].
  destruct (gated_frame e s) as [Hc _].
  destruct (estimated_frame e s) as [Hr [Hp _]].
  rewrite Hu, Ht, Hsp, Hc, Hr, Hp. reflexivity.
Qed.

(** X8.  The tick writes the setpoint in one place only: on a control
    tick with [en_rpy_ctrl] set, [sp.yaw] advances by [DT * sp.yaw_rate];
    every other field, and the whole setpoint on every other tick, is
    left as it was. *)
Theorem setpoint_written_in_yaw_only e s :
  sp (final (feedback_controller e s))
  = if runs_control e s && en_rpy_ctrl (sp s)
    then sp_with_yaw (sp_yaw (sp s) + DT * yaw_rate (sp s)) (sp s)
    else sp s.
Proof.
  destruct (runs_control e s) eqn:Hrc; cbn [andb].
  - destruct (tick_control_vector e s Hrc) as [_ [Hs _]].
    destruct (control_inputs_summary e (gated e s)) as [_ [_ [Hsp' _]]].
    destruct (control_inputs_start e s) as [_ [_ [Hsp _]]].
    rewrite Hs, Hsp'. unfold setpoint_after. rewrite Hsp. reflexivity.
  - destruct (tick_early e s Hrc) as [_ [_ [_ [Hs _]]]]. exact Hs.
Qed.

(** ** The log *)

Lemma add_log_run_on e s :
  enable_logging (set e) = true ->
  exists E,
    add_log e s = (tt, with_new_log E s, [AddLogEntry E])
    /\ log_loop_index E = loop_index s
    /\ (log_alt E, log_roll E, log_pitch E, log_yaw E, log_vbatt E)
       = (alt (cs s), roll (cs s), pitch (cs s), yaw (cs s), v_batt (cs s))
    /\ (u_thr E, u_roll E, u_pitch E, u_yaw E)
       = (u s VEC_THR, u s VEC_ROLL, u s VEC_PITCH, u s VEC_YAW)
    /\ (u_X E, u_Y E) = (u s VEC_Y, u s VEC_X)
    /\ [mot_1 E; mot_2 E; mot_3 E; mot_4 E; mot_5 E; mot_6 E]
       = map (fun k => nth k (m (cs s)) 0) (seq 0 6).
Proof.
  intro Hen. unfold add_log. rewrite Hen.
  unfold bind, get, modify, emit. cbv beta iota zeta.
  eexists. split; [reflexivity|]. repeat split.
Qed.

Lemma new_log_gated e s : new_log (gated e s) = new_log s.
Proof.
  assert (He : new_log (estimated e s) = new_log s).
  { unfold estimated, state_estimation, bind, get, modify, ret, final.
    cbv beta iota zeta.
    destruct (dlt _ _); [reflexivity|]. destruct (dlt _ _); reflexivity. }
  unfold gated, gate_state.
  destruct (pre_disarm e (estimated e s)); exact He.
Qed.

Lemma before_log e s :
  let s2 := final (send_motors (int_range 0 (num_rotors (set e) - 1))
                     (result (control_inputs e s)) (final (control_inputs e s))) in
  loop_index s2 = loop_index s /\ new_log s2 = new_log s.
Proof.
  cbv zeta.
  match goal with |- context [send_motors ?i ?mo ?t] =>
    destruct (send_motors_quiet i mo t) as [Hs _] end.
  cbv beta in Hs.
  destruct (inputs_view_parts _ _ (proj1 (control_inputs_quiet e s)))
    as [_ [_ [Hl _]]].
  pose proof (proj1 (control_inputs_quiet e s)) as Hv.
  apply (f_equal (fun v => snd (fst (fst v)))) in Hv.
  cbn [inputs_view fst snd] in Hv.
  split; congruence.
Qed.

(** X9.  With logging enabled, a control tick pushes exactly one log
    entry: a snapshot of the core state and of the control vector as the
    tick leaves them, with the loop index the tick started with (before
    the increment), with [u_X] taken from [u[VEC_Y]] and [u_Y] from
    [u[VEC_X]], and with [mot_1..mot_6] taken from [cs->m[0..5]], the motor
    values before saturation.  With logging disabled it pushes nothing and
    [new_log] keeps its value. *)
Theorem log_entry_is_snapshot e s :
  runs_control e s = true ->
  let r := feedback_controller e s in
  let s' := final r in
  (enable_logging (set e) = true ->
    log_entries (trace r) = [new_log s']
    /\ log_loop_index (new_log s') = loop_index s
    /\ (log_alt (new_log s'), log_roll (new_log s'), log_pitch (new_log s'),
        log_yaw (new_log s'), log_vbatt (new_log s'))
       = (alt (cs s'), roll (cs s'), pitch (cs s'), yaw (cs s'),
          v_batt (cs s'))
    /\ (u_thr (new_log s'), u_roll (new_log s'), u_pitch (new_log s'),
        u_yaw (new_log s'))
       = (u s' VEC_THR, u s' VEC_ROLL, u s' VEC_PITCH, u s' VEC_YAW)
    /\ (u_X (new_log s'), u_Y (new_log s')) = (u s' VEC_Y, u s' VEC_X)
    /\ [mot_1 (new_log s'); mot_2 (new_log s'); mot_3 (new_log s');
        mot_4 (new_log s'); mot_5 (new_log s'); mot_6 (new_log s')]
       = map (fun k => nth k (m (cs s')) 0) (seq 0 6))
  /\ (enable_logging (set e) = false ->
    log_entries (trace r) = [] /\ new_log s' = new_log s).
Proof.
  intro Hrc. cbv zeta. rewrite (tick_control e s Hrc).
  cbn [final trace fst snd].
  destruct (gate_trace_silent e (estimated e s)) as [_ [_ Gl]].
  rewrite log_entries_app, Gl, control_march_trace, control_march_final.
  cbn [app]. rewrite !log_entries_app.
  destruct (mix_events_silent _ (proj2 (control_inputs_quiet e (gated e s))))
    as [_ [Hl1 _]].
  rewrite Hl1. cbn [app].
  assert (Hl2 : forall l, log_entries (map esc_event l) = []).
  { induction l as [|c l IH]; [reflexivity | exact IH]. }
  rewrite Hl2. cbn [app].
  destruct (before_log e (gated e s)) as [Hli Hnl]. cbv zeta in Hli, Hnl.
  set (s2 := final (send_motors _ _ _)) in *.
  destruct (gated_frame e s) as [_ [Hl0 _]].
  split; intro Hen.
  - destruct (add_log_run_on e s2 Hen) as [E [Hrun [H1 [H2 [H3 [H4 H5]]]]]].
    rewrite Hrun. cbn [final trace fst snd log_entries].
    cbn [new_log cs u with_loop_index with_new_log].
    rewrite H1, Hli, Hl0. repeat split; assumption.
  - unfold add_log. rewrite Hen. cbn [ret final trace fst snd log_entries].
    cbn [new_log with_loop_index].
    rewrite Hnl, new_log_gated. split; reflexivity.
Qed.

(** ** The motors in the core state, beyond the rotors *)

Lemma stored_length idx : forall mot ms,
  List.length (stored idx mot ms) = List.length ms.
Proof.
  induction idx as [|i rest IH]; intros mot ms; [reflexivity|].
  cbn [stored]. rewrite IH. apply array_set_length.
Qed.

(** X10.  A tick keeps the size of [cs->m] and writes none of its cells
    from index [num_rotors] on. *)
Theorem core_motor_cells_beyond_rotors_kept e s :
  let s' := final (feedback_controller e s) in
  List.length (m (cs s')) = List.length (m (cs s))
  /\ forall k, (num_rotors (set e) <= Z.of_nat k)%Z ->
       nth k (m (cs s')) 0 = nth k (m (cs s)) 0.
Proof.
  cbv zeta. destruct (runs_control e s) eqn:Hrc.
  - destruct (tick_outputs e s Hrc) as [_ Hm]. rewrite Hm. split.
    + apply stored_length.
    + intros k Hk. apply stored_untouched.
      rewrite in_map_iff. intros [i [Hi Hin]].
      apply int_range_In in Hin. lia.
  - destruct (tick_early e s Hrc) as [_ [Hc _]]. rewrite Hc.
    destruct (estimated_frame e s) as [_ [_ [_ [Hm _]]]]. rewrite Hm.
    split; [reflexivity | intros; reflexivity].
Qed.

(** ** The original gains *)

(** X11.  The three original gains saved at initialisation are changed by
    no later call: not by a tick, not by [arm_controller], not by
    [disarm_controller]. *)
Theorem original_gains_are_kept e s :
  let orig := fun t => (D_roll_gain_orig t, D_pitch_gain_orig t,
                        D_yaw_gain_orig t) in
  orig (final (feedback_controller e s)) = orig s
  /\ orig (final (arm_controller e s)) = orig s
  /\ orig (final (disarm_controller s)) = orig s.
Proof.
  cbv zeta. split; [|split].
  - destruct (gated_frame e s) as [_ [_ [_ [_ [_ Hg]]]]].
    rewrite feedback_controller_run.
    destruct (tipped e); [exact Hg|].
    destruct (runs_control e s); [|exact Hg].
    cbn [final fst snd]. rewrite <- Hg.
    pose proof (control_march_view e (gated e s)) as Hv.
    apply (f_equal (fun v => snd (fst v))) in Hv.
    cbn [control_view fst snd] in Hv. rewrite Hv.
    destruct (inputs_view_parts _ _
                (proj1 (control_inputs_quiet e (gated e s))))
      as [_ [_ [_ [Ho _]]]].
    exact Ho.
  - rewrite arm_controller_run. destruct (arm_state s); reflexivity.
  - reflexivity.
Qed.

(** ** What a control tick never does *)

Lemma control_events_quiet t :
  Forall control_event t -> printed t = [] /\ annunciations t = [].
Proof.
  induction 1 as [|ev t Hev _ IH]; [split; reflexivity|].
  destruct ev; cbn in *; try contradiction; exact IH.
Qed.

(** X12.  A tick that runs the control path touches neither the LEDs nor
    the log manager's start and stop, and prints nothing: all it emits
    are mixer calls, ESC pulses and at most one log entry. *)
Theorem control_tick_is_silent e s :
  runs_control e s = true ->
  let t := trace (feedback_controller e s) in
  Forall control_event t /\ printed t = [] /\ annunciations t = [].
Proof.
  intro Hrc. cbv zeta.
  assert (H : Forall control_event (trace (feedback_controller e s))).
  { rewrite (tick_control e s Hrc). cbn [trace snd].
    destruct (proj1 (runs_control_true e s) Hrc) as [_ [Hr _]].
    unfold gate_trace, pre_disarm. rewrite (Hr disarm_test).
    cbn [rc_state_eqb negb andb app].
    rewrite control_march_trace.
    apply Forall_app. split; [|apply Forall_app; split].
    - eapply Forall_impl; [|exact (proj2 (control_inputs_quiet e (gated e s)))].
      intros [] Hev; cbn in *; tauto.
    - apply Forall_forall. intros ev Hin. apply in_map_iff in Hin.
      destruct Hin as [c [Hc _]]. subst ev. exact I.
    - match goal with |- context [add_log e ?t] =>
        pose proof (proj2 (add_log_quiet e t)) as Hl end.
      eapply Forall_impl; [|exact Hl].
      intros [] Hev; cbn in *; tauto. }
  split; [exact H | apply control_events_quiet; exact H].
Qed.

(** ** Between disarming and arming *)

Lemma disarmed_tick_stays_disarmed e s :
  arm_state s = DISARMED ->
  arm_state (final (feedback_controller e s)) = DISARMED.
Proof.
  intro Hd. rewrite arm_state_after_tick, Hd.
  destruct (_ || _); reflexivity.
Qed.

(** X13.  Once DISARMED the controller stays so, whatever the IMU and
    the run state do: over any number of ticks every ESC command is the
    idle pulse, no mixer call is made, nothing is logged, and the loop
    counter, the setpoint, the control vector and the compensators keep
    their values.  Only [arm_controller] ends this. *)
Theorem disarmed_controller_stays_idle es : forall s,
  arm_state s = DISARMED ->
  let r := run_ticks es s in
  arm_state (fst r) = DISARMED
  /\ Forall (fun c => snd c = IDLE_PULSE) (esc_commands (snd r))
  /\ mixer_calls (snd r) = []
  /\ log_entries (snd r) = []
  /\ loop_index (fst r) = loop_index s
  /\ sp (fst r) = sp s
  /\ u (fst r) = u s
  /\ (D_roll (fst r), D_pitch (fst r), D_yaw (fst r))
     = (D_roll s, D_pitch s, D_yaw s).
Proof.
  induction es as [|e es IH]; intros s Hd; cbv zeta.
  - cbn [run_ticks fst snd]. repeat split; try assumption; constructor.
  - cbn [run_ticks fst snd].
    pose proof (runs_control_false e s (or_introl Hd)) as Hrc.
    destruct (tick_early e s Hrc)
      as [_ [_ [Hl [Hs [Hu [Hf [Hm [Hg He]]]]]]]].
    destruct (IH (final (feedback_controller e s))
                 (disarmed_tick_stays_disarmed e s Hd))
      as [Ia [Ie [Im [Ig [Il [Is [Iu If]]]]]]].
    rewrite esc_commands_app, mixer_calls_app, log_entries_app, Hm, Hg, Im, Ig.
    repeat split; try congruence.
    apply Forall_app. split; assumption.
Qed.

(** ** The spin count over time *)

(** X14.  Over any run of ticks the yaw spin count moves by at most one
    per tick: after [n] ticks it is within [n] of where it started. *)
Theorem spin_count_drift_bounded es : forall s,
  (Z.abs (num_yaw_spins (fst (run_ticks es s)) - num_yaw_spins s)
   <= Z.of_nat (List.length es))%Z.
Proof.
  induction es as [|e es IH]; intro s.
  - cbn [run_ticks fst List.length]. lia.
  - cbn [run_ticks fst List.length].
    specialize (IH (final (feedback_controller e s))).
    pose proof (num_yaw_spins_step e s) as Hs. cbv zeta in Hs. lia.
Qed.

(** ** Initialisation *)

(** X15.  When one of the three controllers cannot be read from the
    settings, [initialize_controller] returns -1 and has made no outside
    call: the interrupt function is not installed, the LEDs and the log
    manager are not touched, and neither the arm state nor the saved
    original gains are written. *)
Theorem initialize_controller_fails_quietly cstate setpoint jr jp jy s :
  jr = None \/ jp = None \/ jy = None ->
  let r := initialize_controller cstate setpoint jr jp jy s in
  result r = (-1)%Z
  /\ trace r = []
  /\ arm_state (final r) = arm_state s
  /\ (D_roll_gain_orig (final r), D_pitch_gain_orig (final r),
      D_yaw_gain_orig (final r))
     = (D_roll_gain_orig s, D_pitch_gain_orig s, D_yaw_gain_orig s).
Proof.
  intros H. cbv zeta.
  destruct jr as [dr|]; [|repeat split].
  destruct jp as [dp|]; [|repeat split].
  destruct jy as [dy|]; [|repeat split].
  destruct H as [H | [H | H]]; discriminate H.
Qed.

(** X16.  When the three controllers are read, [initialize_controller]
    returns 0 and leaves the controller DISARMED with red on and green
    off, the log manager stopped and the interrupt function installed
    last; each original gain is the gain of the controller just loaded,
    and the core state and setpoint are the structs handed over.  No tick
    runs the control path on that state. *)
Theorem initialize_controller_succeeds cstate setpoint dr dp dy s :
  let r := initialize_controller cstate setpoint
             (Some dr) (Some dp) (Some dy) s in
  result r = 0%Z
  /\ trace r = disarm_events ++ [SetImuInterruptFunc]
  /\ arm_state (final r) = DISARMED
  /\ (D_roll_gain_orig (final r), D_pitch_gain_orig (final r),
      D_yaw_gain_orig (final r))
     = (gain dr, gain dp, gain dy)
  /\ (gain (D_roll (final r)), gain (D_pitch (final r)),
      gain (D_yaw (final r)))
     = (gain dr, gain dp, gain dy)
  /\ cs (final r) = cstate /\ sp (final r) = setpoint
  /\ forall e, runs_control e (final r) = false.
Proof.
  cbv zeta. repeat split.
  intro e. apply runs_control_false. left. reflexivity.
Qed.

(** ** Arming and disarming, one after the other *)

(** X17.  After [arm_controller] the controller is ARMED, and
    [get_controller_arm_state] says so, whether the call returned 0 or
    -1; so a second call right after it always returns -1, prints the
    warning and changes nothing: the filters are not reset again and the
    log manager is not started again. *)
Theorem arm_twice_is_arm_once e1 e2 s :
  let s1 := final (arm_controller e1 s) in
  result (get_controller_arm_state s1) = ARMED
  /\ final (get_controller_arm_state s1) = s1
  /\ arm_controller e2 s1 = ((-1)%Z, s1, [Printf already_armed_warning]).
Proof.
  cbv zeta.
  assert (Ha : arm_state (final (arm_controller e1 s)) = ARMED).
  { rewrite arm_controller_run.
    destruct (arm_state s) eqn:Hs; [reflexivity | exact Hs]. }
  split; [exact Ha|]. split; [reflexivity|].
  rewrite (arm_controller_run e2), Ha. reflexivity.
Qed.

(** X18.  [disarm_controller] writes the arm state and nothing else of the
    controller's state, and sends nothing to the ESCs; a second call
    leaves the same state.  [arm_controller] right after it always
    succeeds: it returns 0, ends ARMED and starts from a spin count of 0. *)
Theorem disarm_then_arm e s :
  let d := disarm_controller s in
  final d = with_arm_state DISARMED s
  /\ result (get_controller_arm_state (final d)) = DISARMED
  /\ esc_commands (trace d) = []
  /\ final (disarm_controller (final d)) = final d
  /\ result (arm_controller e (final d)) = 0%Z
  /\ arm_state (final (arm_controller e (final d))) = ARMED
  /\ num_yaw_spins (final (arm_controller e (final d))) = 0%Z.
Proof.
  cbv zeta. rewrite disarm_controller_run. cbn [final trace fst snd].
  rewrite arm_controller_run. cbn [arm_state with_arm_state].
  cbn [result final fst snd].
  repeat split; reflexivity.
Qed.

(** X19.  The motors are idled by the tick that follows a disarm, as the
    comment of [disarm_controller] announces: whatever the state was, the
    first tick after [disarm_controller] sends the idle pulse to each of
    the (at most eight) rotors and nothing else to the ESCs, makes no
    mixer call and leaves the controller DISARMED. *)
Theorem tick_after_disarm_idles e s :
  (num_rotors (set e) <= 8)%Z ->
  let r := feedback_controller e (final (disarm_controller s)) in
  esc_commands (trace r) = idle_commands (num_rotors (set e))
  /\ mixer_calls (trace r) = []
  /\ arm_state (final r) = DISARMED.
Proof.
  intros Hn. cbv zeta.
  set (s0 := final (disarm_controller s)).
  assert (Hd : arm_state s0 = DISARMED) by reflexivity.
  pose proof (runs_control_false e s0 (or_introl Hd)) as Hrc.
  destruct (tick_early e s0 Hrc) as [_ [_ [_ [_ [_ [_ [Hm _]]]]]]].
  split; [|split; [exact Hm | exact (disarmed_tick_stays_disarmed e s0 Hd)]].
  rewrite feedback_controller_run, Hrc.
  destruct (gate_trace_silent e (estimated e s0)) as [Ge _].
  destruct (tipped e); cbn [trace snd]; rewrite !esc_commands_app, Ge;
    cbn [app disarm_events esc_commands]; apply idle_trace_commands;
    exact Hn.
Qed.


(** ** The spin count of a tick *)

Lemma spins_after_tick e s :
  num_yaw_spins (final (feedback_controller e s))
  = num_yaw_spins (estimated e s).
Proof.
  rewrite feedback_controller_run.
  assert (Hg : num_yaw_spins (gated e s) = num_yaw_spins (estimated e s)).
  { unfold gated, gate_state. destruct (pre_disarm e (estimated e s));
      reflexivity. }
  destruct (tipped e); [exact Hg|].
  destruct (runs_control e s); [|exact Hg].
  cbn [final fst snd]. rewrite control_march_final.
  cbn [num_yaw_spins with_loop_index]. rewrite <- Hg.
  match goal with |- context [add_log e ?t] =>
    assert (Ha : num_yaw_spins (final (add_log e t)) = num_yaw_spins t)
      by (unfold add_log; destruct (enable_logging (set e)); reflexivity)
  end.
  rewrite Ha. rewrite send_motors_run. cbn [final fst snd].
  cbn [num_yaw_spins with_cs].
  assert (Hq : quiet num_yaw_spins mix_event (control_inputs e)).
  { unfold control_inputs, throttle_controller, rpy_controllers,
      roll_controller, pitch_controller, yaw_controller, lateral_inputs,
      call_add_mixed_input. quiet_auto. }
  apply Hq.
Qed.

End Properties.

(** * The formulas over the rationals

    What follows reads the code in the arithmetic [rational]: it holds of
    the formulas of the code, and of the code itself as far as its
    [double] operations do not round. *)

Section RationalArithmetic.

#[local] Existing Instance rational.

Context {FD : FlyDefs} {RC : RoboticsCape} {MX : Mixer}.

Local Open Scope Q_scope.

(** The operations of [rational] by their names. *)
Ltac rational_arithmetic :=
  change (@dlt rational) with Qltb in *;
  change (@dadd rational) with Qplus in *;
  change (@dsub rational) with Qminus in *;
  change (@dmul rational) with Qmult in *;
  change (@ddiv rational) with Qdiv in *;
  change (@dneg rational) with Qopp in *;
  change (@fabs rational) with Qabs in *;
  change (@of_int rational) with inject_Z in *;
  change (@double_to_int rational) with Q_to_int in *.

(** ** Comparisons and saturation *)

Lemma Qltb_lt a b : Qltb a b = true <-> a < b.
Proof.
  unfold Qltb. rewrite negb_true_iff, <- not_true_iff_false, Qle_bool_iff.
  split; [apply Qnot_le_lt | apply Qlt_not_le].
Qed.

Lemma Qltb_ge a b : Qltb a b = false <-> b <= a.
Proof.
  unfold Qltb. rewrite negb_false_iff. apply Qle_bool_iff.
Qed.

Lemma saturate_double_range (v lo hi : Q) :
  lo <= hi -> lo <= saturate_double v lo hi <= hi.
Proof.
  intro Hlh. unfold saturate_double. rational_arithmetic.
  destruct (Qltb hi v) eqn:H1.
  - split; [exact Hlh | apply Qle_refl].
  - destruct (Qltb v lo) eqn:H2.
    + split; [apply Qle_refl | exact Hlh].
    + apply Qltb_ge in H1, H2. split; assumption.
Qed.

(** ** Gain scheduling

    Over the rationals the scheduled gain is [gain_orig] at the nominal
    voltage and twice [gain_orig] at half of it. *)

Lemma scheduled_gain_nominal e s (g : Q) :
  ~ v_nominal (set e) == 0 -> v_batt (cs s) == v_nominal (set e) ->
  scheduled_gain e s g == g.
Proof.
  unfold scheduled_gain. rational_arithmetic. intros Hv Hb. rewrite Hb.
  apply Qdiv_mult_l. exact Hv.
Qed.

Lemma scheduled_gain_sagged e s (g : Q) :
  ~ v_nominal (set e) == 0 -> v_batt (cs s) == (1 # 2) * v_nominal (set e) ->
  scheduled_gain e s g == 2 * g.
Proof.
  unfold scheduled_gain. rational_arithmetic. intros Hv Hb. rewrite Hb.
  field. exact Hv.
Qed.

(** ** The yaw estimator after arming *)

Lemma double_to_int_near (x : Q) :
  -(1) < x - inject_Z (Q_to_int x) /\ x - inject_Z (Q_to_int x) < 1.
Proof.
  destruct x as [n d]. unfold Q_to_int. cbn [Qnum Qden].
  pose proof (Z.quot_rem' n (Z.pos d)) as Hq.
  pose proof (Z.rem_bound_abs n (Z.pos d)) as Hr.
  assert (Hr' : (Z.abs (Z.rem n (Z.pos d)) < Z.pos d)%Z) by lia.
  unfold Qlt, Qminus, Qplus, Qopp, inject_Z. cbn [Qnum Qden].
  set (q := Z.quot n (Z.pos d)) in *. set (r := Z.rem n (Z.pos d)) in *.
  rewrite !Pos.mul_1_r. split; nia.
Qed.

(** X20.  Arming zeroes the yaw estimator on the heading of the moment:
    provided [PI] is at least 1, the first tick after a successful
    [arm_controller] that reads the same IMU yaw counts no spin.  The
    two tests of the estimator are read over the rationals. *)
Theorem no_spin_on_first_tick_after_arming e1 e2 s :
  1 <= PI ->
  arm_state s = DISARMED ->
  fusedTaitBryan (imu e2) VEC3_Z = fusedTaitBryan (imu e1) VEC3_Z ->
  num_yaw_spins (final (feedback_controller e2 (final (arm_controller e1 s))))
  = 0%Z.
Proof.
  intros Hpi Hd Hz. rewrite spins_after_tick.
  rewrite arm_controller_run, Hd. cbn [final fst snd].
  destruct (estimated_yaw e2 (armed_state e1 s)) as [Hs _].
  cbv zeta in Hs. rewrite Hs. clear Hs.
  cbn [num_yaw_spins last_yaw armed_state with_arm_state with_last_yaw
       with_num_yaw_spins].
  rewrite Hz. rational_arithmetic.
  destruct (double_to_int_near (- fusedTaitBryan (imu e1) VEC3_Z)) as [Hl Hh].
  set (z := fusedTaitBryan (imu e1) VEC3_Z) in *.
  set (k := inject_Z (Q_to_int (- z))) in *.
  change (inject_Z 0) with 0.
  match goal with |- (if ?c then _ else _) = _ => destruct c eqn:H1 end.
  - apply Qltb_lt in H1. exfalso. lra.
  - match goal with |- (if ?c then _ else _) = _ => destruct c eqn:H2 end;
      [|reflexivity].
    apply Qltb_lt in H2. exfalso. lra.
Qed.

End RationalArithmetic.

(** * The final saturation in double precision

    What follows reads the code in the arithmetic [binary64], with the
    comparisons of IEEE 754: no comparison holds of a NaN. *)

Section DoublePrecision.

#[local] Existing Instance binary64.

Context {FD : FlyDefs} {RC : RoboticsCape} {MX : Mixer}.

Lemma SFcompare_swap a b c :
  SpecFloat.SFcompare a b = Some c ->
  SpecFloat.SFcompare b a = Some (CompOpp c).
Proof.
  destruct a as [s1|s1| |s1 m1 e1], b as [s2|s2| |s2 m2 e2]; cbn;
    intro H; try discriminate H; injection H as H; subst c;
    try (destruct s1; reflexivity); try (destruct s2; reflexivity);
    try (destruct s1, s2; reflexivity).
  destruct s1, s2; try reflexivity;
    rewrite (Z.compare_antisym e1 e2); destruct (e1 ?= e2)%Z; cbn [CompOpp];
    try reflexivity; rewrite (Pos.compare_cont_antisym m1 m2 Eq);
    reflexivity.
Qed.

(** [saturate_double] to [0, 1]: the result is within [0, 1], unless the
    value is a NaN, which is returned as it is. *)
Lemma saturate_double_binary64 (v : double) :
  let zero : double := 0 in
  let one : double := 1 in
  let r := saturate_double v zero one in
  (PrimFloat.is_nan v = true /\ r = v)
  \/ (PrimFloat.leb zero r = true /\ PrimFloat.leb r one = true).
Proof.
  cbv zeta. unfold saturate_double.
  change (@dlt binary64) with PrimFloat.ltb.
  destruct (PrimFloat.ltb _ v) eqn:H1;
    [right; split; vm_compute; reflexivity|].
  destruct (PrimFloat.ltb v _) eqn:H2;
    [right; split; vm_compute; reflexivity|].
  unfold PrimFloat.is_nan.
  rewrite FloatAxioms.ltb_spec in H1, H2.
  rewrite FloatAxioms.eqb_spec, !FloatAxioms.leb_spec.
  unfold SpecFloat.SFltb in H1, H2. unfold SpecFloat.SFeqb, SpecFloat.SFleb.
  set (a := FloatOps.Prim2SF v) in *.
  set (o := FloatOps.Prim2SF (@of_int binary64 1)) in *.
  set (z := FloatOps.Prim2SF (@of_int binary64 0)) in *.
  destruct (SpecFloat.SFcompare a a) as [c|] eqn:Haa.
  - right. assert (Hn : a <> SpecFloat.S754_nan)
      by (intro E; rewrite E in Haa; discriminate Haa).
    destruct (SpecFloat.SFcompare o a) as [c1|] eqn:Hoa;
      [|vm_compute in o; subst o; destruct a; try discriminate Hoa;
        congruence].
    destruct (SpecFloat.SFcompare a z) as [c2|] eqn:Haz;
      [|vm_compute in z; subst z; destruct a; try discriminate Haz;
        congruence].
    rewrite (SFcompare_swap _ _ _ Hoa), (SFcompare_swap _ _ _ Haz).
    destruct c1, c2; try discriminate; split; reflexivity.
  - left. split; reflexivity.
Qed.

(** X21.  In double precision, on a tick that runs the armed control path
    the ESC commands are exactly one per rotor, channel i+1 getting the
    motor value i of the mixed vector passed through
    [saturate_double(.., 0.0, 1.0)], the last thing done to it before it
    is sent; each value sent is within [0, 1], or else the mixed value is
    a NaN and is sent as it is. *)
Theorem esc_outputs_clamped_or_not_a_number e s :
  runs_control e s = true ->
  let zero : double := 0 in
  let one : double := 1 in
  let r := feedback_controller e s in
  esc_commands (trace r)
  = map (fun i => ((i + 1)%Z,
                   saturate_double (nth (Z.to_nat i) (mixed e s) zero)
                                   zero one))
        (int_range 0 (num_rotors (set e) - 1))
  /\ Forall2 (fun i c =>
       (PrimFloat.is_nan (nth (Z.to_nat i) (mixed e s) zero) = true
        /\ snd c = nth (Z.to_nat i) (mixed e s) zero)
       \/ (PrimFloat.leb zero (snd c) = true
           /\ PrimFloat.leb (snd c) one = true))
     (int_range 0 (num_rotors (set e) - 1)) (esc_commands (trace r)).
Proof.
  intro Hrc. cbv zeta. destruct (tick_outputs e s Hrc) as [Hesc _].
  split; [exact Hesc|]. rewrite Hesc. clear Hesc.
  induction (int_range 0 (num_rotors (set e) - 1)) as [|i l IH];
    cbn [map]; [constructor|].
  constructor; [|exact IH].
  cbn [snd]. apply saturate_double_binary64.
Qed.

End DoublePrecision.

(** * Runs on the bench, over the rationals *)

Section BenchRuns.

#[local] Existing Instance rational.
#[local] Existing Instance Bench.defs.
#[local] Existing Instance Bench.lib.
#[local] Existing Instance Bench.mixer.

Import Bench.

Local Open Scope Q_scope.

Ltac by_computation :=
  repeat match goal with
  | |- _ /\ _ => split
  | |- ~ _ => let H := fresh in intro H; vm_compute in H;
              first [discriminate H | exact (H eq_refl) | contradiction]
  | |- _ => vm_compute; first [reflexivity | discriminate | exact I
                              | (intro; discriminate)]
  end.

(** A tick on the disarmed bench controller, and a tick on the armed one
    while the run state is PAUSED: both idle the four ESCs. *)
Lemma idle_pulse_on_bench :
  (num_rotors (set (running level)) <= 8)%Z
  /\ arm_state (booted (lit 111 10) hover) = DISARMED
  /\ esc_commands (trace (feedback_controller (running level)
                                              (booted (lit 111 10) hover)))
     = [(1%Z, IDLE_PULSE); (2%Z, IDLE_PULSE); (3%Z, IDLE_PULSE);
        (4%Z, IDLE_PULSE)]
  /\ arm_state (armed (lit 111 10) hover) = ARMED
  /\ get_state (paused level) idle_test <> RUNNING
  /\ esc_commands (trace (feedback_controller (paused level)
                                              (armed (lit 111 10) hover)))
     = [(1%Z, IDLE_PULSE); (2%Z, IDLE_PULSE); (3%Z, IDLE_PULSE);
        (4%Z, IDLE_PULSE)].
Proof.
  assert (Hn : (num_rotors (set (running level)) <= 8)%Z)
    by (intro H; discriminate H).
  assert (Hd : arm_state (booted (lit 111 10) hover) = DISARMED)
    by reflexivity.
  assert (Hp : get_state (paused level) idle_test <> RUNNING)
    by (intro H; discriminate H).
  split; [exact Hn|]. split; [exact Hd|]. split.
  - exact (proj2 (idle_pulse_when_disarmed_or_not_running
                    (running level) (booted (lit 111 10) hover) (or_introl Hd))
                 Hn).
  - split; [reflexivity|]. split; [exact Hp|].
    exact (proj2 (idle_pulse_when_disarmed_or_not_running
                    (paused level) (armed (lit 111 10) hover)
                    (or_intror (or_intror Hp)))
                 Hn).
Defined.

(** A pitch reading of 1.6 rad, above the bench's TIP_ANGLE of 1.5, on an
    armed and running controller. *)
Lemma tipover_on_bench :
  let e := running (imu_tilt (lit 8 5)) in
  let s := armed (lit 111 10) hover in
  let r := feedback_controller e s in
  arm_state s = ARMED
  /\ (TIP_ANGLE <? fabs (fusedTaitBryan (imu e) VEC3_X))%dbl = true
  /\ result r = 0%Z
  /\ arm_state (final r) = DISARMED
  /\ esc_commands (trace r) = idle_commands 4
  /\ mixer_calls (trace r) = []
  /\ loop_index (final r) = loop_index s.
Proof.
  cbv zeta.
  assert (Htip : (TIP_ANGLE <? fabs (fusedTaitBryan
                    (imu (running (imu_tilt (lit 8 5)))) VEC3_X))%dbl = true)
    by reflexivity.
  assert (Hn : (num_rotors (set (running (imu_tilt (lit 8 5)))) <= 8)%Z)
    by (intro H; discriminate H).
  destruct (tipover_disarms_and_idles (running (imu_tilt (lit 8 5)))
              (armed (lit 111 10) hover) (or_intror Htip) Hn)
    as [_ [_ [Hres [Harm [Hesc [Hmix [_ [Hloop _]]]]]]]].
  split; [reflexivity|]. split; [exact Htip|].
  split; [exact Hres|]. split; [exact Harm|]. split; [exact Hesc|].
  split; [exact Hmix | exact Hloop].
Defined.

(** ** The yaw published *)

(** C4, on the bench.  The controller is armed with the vehicle level and
    the next IMU sample has yaw 0.5.  The tick publishes [cs->yaw] = +0.5,
    where the negated raw yaw plus the spin count times 2 pi is -0.5, and
    [last_yaw], an [int], becomes 0, not the value published. *)
Theorem yaw_published_on_bench :
  let e := running (imu_yaw (lit 1 2)) in
  let s' := final (feedback_controller e (armed (lit 111 10) hover)) in
  num_yaw_spins s' = 0%Z
  /\ yaw (cs s') == 1 # 2
  /\ - fusedTaitBryan (imu e) VEC3_Z + inject_Z (num_yaw_spins s') * TWO_PI
     == - (1 # 2)
  /\ last_yaw s' = 0%Z
  /\ ~ inject_Z (last_yaw s') == yaw (cs s').
Proof. cbv zeta. by_computation. Qed.

(** C5, on the bench.  The controller is armed while the IMU reads yaw 3
    and the IMU keeps reading 3.  The first tick publishes yaw 3, the
    second counts a spin and publishes 3 + 2 pi: the published yaw jumps
    by 2 pi although the IMU yaw did not move, more than the pi the
    continuity bound allows. *)
Theorem yaw_jump_on_bench :
  let e := running (imu_yaw (of_int 3)) in
  let s0 := final (arm_controller e (booted (lit 111 10) hover)) in
  let s1 := final (feedback_controller e s0) in
  let s2 := final (feedback_controller e s1) in
  - PI < fusedTaitBryan (imu e) VEC3_Z <= PI
  /\ num_yaw_spins s0 = 0%Z /\ last_yaw s0 = (-3)%Z
  /\ num_yaw_spins s1 = 0%Z /\ yaw (cs s1) == 3 /\ last_yaw s1 = 3%Z
  /\ num_yaw_spins s2 = 1%Z /\ yaw (cs s2) == 3 + TWO_PI
  /\ ~ Qabs (yaw (cs s2) - yaw (cs s1))
       <= PI + Qabs (fusedTaitBryan (imu e) VEC3_Z
                     - fusedTaitBryan (imu e) VEC3_Z).
Proof. cbv zeta. by_computation. Qed.

(** ** The motors in the core state *)

(** Against C6.  An armed tick on the bench with a sideways setpoint: the
    throttle puts 0.5 on every rotor, [sp.Y_throttle] = 0.8 fits the window
    of channel [VEC_X] and is added through channel [VEC_Y], whose weight
    is 1.  The mixed motor values are 1.3; [cs->m] records 1.3 for each of
    the four rotors, outside of [0, 1], while the ESCs are sent 1. *)
Lemma core_motors_above_one_on_bench :
  let e := running level in
  let s := armed (lit 111 10) sideways in
  let r := feedback_controller e s in
  (0 <= 0 < num_rotors (set e))%Z
  /\ nth 0 (m (cs (final r))) 0 == 13 # 10
  /\ ~ (0 <= nth 0 (m (cs (final r))) 0 <= 1)
  /\ esc_commands (trace r) = [(1%Z, 1); (2%Z, 1); (3%Z, 1); (4%Z, 1)].
Proof.
  cbv zeta. split; [split; reflexivity|]. split; [reflexivity|].
  split; [|reflexivity].
  intros [_ H]. vm_compute in H. exact (H eq_refl).
Qed.

(** The same tick, read through the theorem: rotor 0 of [cs->m] is the
    mixed value and channel 1 is sent its saturation. *)
Lemma core_motors_on_bench :
  let e := running level in
  let s := armed (lit 111 10) sideways in
  let r := feedback_controller e s in
  runs_control e s = true
  /\ nth 0 (m (cs (final r))) 0 = nth 0 (mixed e s) 0
  /\ In (1%Z, saturate_double (nth 0 (m (cs (final r))) 0) 0 1)
        (esc_commands (trace r)).
Proof.
  cbv zeta.
  assert (Hrc : runs_control (running level) (armed (lit 111 10) sideways) = true)
    by reflexivity.
  split; [exact Hrc|].
  destruct (core_motors_hold_unsaturated_mix (running level)
              (armed (lit 111 10) sideways)) as [_ H].
  apply (H Hrc 0%Z).
  - split; [intro C; discriminate C | reflexivity].
  - vm_compute. lia.
Defined.

(** ** The loop counter *)

(** Against C7.  A tick on a disarmed controller leaves [loop_index] at
    0; so does a tick that detects a tipover while armed. *)
Lemma loop_index_stays_on_bench :
  let s := booted (lit 111 10) hover in
  let s' := final (feedback_controller (running level) s) in
  let t := armed (lit 111 10) hover in
  let t' := final (feedback_controller (running (imu_tilt (lit 8 5))) t) in
  arm_state s = DISARMED /\ loop_index s = 0%Z /\ loop_index s' = 0%Z
  /\ loop_index s' <> (loop_index s + 1)%Z
  /\ arm_state t = ARMED /\ loop_index t' = loop_index t
  /\ loop_index t' <> (loop_index t + 1)%Z.
Proof. cbv zeta. by_computation. Qed.

(** ** The lateral inputs *)

(** The sideways tick on the bench: its last two mixer calls are on
    channel [VEC_Y], carrying [u[VEC_Y]] and [u[VEC_X]]. *)
Lemma lateral_inputs_on_bench :
  let e := running level in
  let s := armed (lit 111 10) sideways in
  let r := feedback_controller e s in
  runs_control e s = true /\ en_6dof (sp s) = true
  /\ (exists calls,
        mixer_calls (trace r)
        = calls ++ [(u (final r) VEC_Y, VEC_Y); (u (final r) VEC_X, VEC_Y)])
  /\ Forall (fun c => snd c <> VEC_X) (mixer_calls (trace r)).
Proof.
  cbv zeta.
  assert (Hrc : runs_control (running level) (armed (lit 111 10) sideways) = true)
    by reflexivity.
  assert (Hen : en_6dof (sp (armed (lit 111 10) sideways)) = true)
    by reflexivity.
  split; [exact Hrc|]. split; [exact Hen|].
  destruct (lateral_inputs_mixed_through_VEC_Y (running level)
              (armed (lit 111 10) sideways) Hrc Hen)
    as [mot [calls H]].
  cbv zeta in H. destruct H as [Hy [Hx [Hc [_ [_ Hall]]]]].
  split; [|exact Hall].
  exists calls. rewrite Hy, Hx. exact Hc.
Defined.

(** ** Further runs *)

(** Nine rotors in the settings: the disarmed tick sends nothing. *)
Lemma nine_rotors_on_bench :
  let s := booted (lit 111 10) hover in
  (8 < num_rotors (set nine_rotors))%Z
  /\ runs_control nine_rotors s = false
  /\ esc_commands (trace (feedback_controller nine_rotors s)) = []
  /\ result (feedback_controller nine_rotors s) = 0%Z.
Proof.
  cbv zeta.
  assert (Hn : (8 < num_rotors (set nine_rotors))%Z) by reflexivity.
  assert (Hrc : runs_control nine_rotors (booted (lit 111 10) hover) = false)
    by reflexivity.
  destruct (too_many_rotors_no_idle_pulse nine_rotors
              (booted (lit 111 10) hover) Hn Hrc) as [He [_ Hr]].
  split; [exact Hn|]. split; [exact Hrc|]. split; [exact He | exact Hr].
Defined.

(** Every axis on: six mixer calls, in the order of the code. *)
Lemma mixer_calls_on_bench :
  let e := running level in
  let s := armed (lit 111 10) flying in
  runs_control e s = true
  /\ map snd (mixer_calls (trace (feedback_controller e s)))
     = [VEC_THR; VEC_ROLL; VEC_PITCH; VEC_YAW; VEC_Y; VEC_Y].
Proof.
  cbv zeta.
  assert (Hrc : runs_control (running level) (armed (lit 111 10) flying) = true)
    by reflexivity.
  split; [exact Hrc|].
  rewrite (mixer_calls_follow_control_vector (running level)
             (armed (lit 111 10) flying) Hrc).
  reflexivity.
Defined.

(** Every optional axis off: the five entries of [u] are 0. *)
Lemma disabled_axes_on_bench :
  let e := running level in
  let s := armed (lit 111 10) throttle_only in
  let u' := u (final (feedback_controller e s)) in
  runs_control e s = true
  /\ en_rpy_ctrl (sp s) = false /\ en_6dof (sp s) = false
  /\ u' VEC_ROLL = 0 /\ u' VEC_PITCH = 0 /\ u' VEC_YAW = 0
  /\ u' VEC_X = 0 /\ u' VEC_Y = 0.
Proof.
  cbv zeta.
  assert (Hrc : runs_control (running level)
                  (armed (lit 111 10) throttle_only) = true) by reflexivity.
  assert (Hr : en_rpy_ctrl (sp (armed (lit 111 10) throttle_only)) = false)
    by reflexivity.
  assert (H6 : en_6dof (sp (armed (lit 111 10) throttle_only)) = false)
    by reflexivity.
  destruct (disabled_axes_are_zeroed (running level)
              (armed (lit 111 10) throttle_only) Hrc) as [A B].
  destruct (A Hr) as [A1 [A2 A3]]. destruct (B H6) as [B1 B2].
  repeat split; assumption.
Defined.

(** A tilted hover, roll 0.5 rad: the throttle is divided by the cosine
    of the roll just read (0.875 on the bench). *)
Lemma throttle_on_bench :
  let t := {| imu := {| fusedTaitBryan :=
                          fun a => match a with VEC3_Y => 1 # 2 | _ => 0 end |};
              set := settings; get_state := fun _ => RUNNING |} in
  let s := armed (lit 111 10) hover in
  runs_control t s = true
  /\ u (final (feedback_controller t s)) VEC_THR == - (4 # 7).
Proof.
  cbv zeta.
  set (t := {| imu := _; set := settings; get_state := _ |}).
  assert (Hrc : runs_control t (armed (lit 111 10) hover) = true)
    by reflexivity.
  split; [exact Hrc|].
  rewrite (throttle_uses_fresh_attitude t (armed (lit 111 10) hover) Hrc).
  reflexivity.
Defined.

(** A logged and an unlogged control tick. *)
Lemma log_on_bench :
  let s := armed (lit 111 10) flying in
  let r := feedback_controller (running level) s in
  let q := feedback_controller (unlogged level) s in
  runs_control (running level) s = true
  /\ log_entries (trace r) = [new_log (final r)]
  /\ log_loop_index (new_log (final r)) = loop_index s
  /\ (u_X (new_log (final r)), u_Y (new_log (final r)))
     = (u (final r) VEC_Y, u (final r) VEC_X)
  /\ runs_control (unlogged level) s = true
  /\ log_entries (trace q) = [].
Proof.
  cbv zeta.
  assert (Hr : runs_control (running level) (armed (lit 111 10) flying) = true)
    by reflexivity.
  assert (Hq : runs_control (unlogged level) (armed (lit 111 10) flying) = true)
    by reflexivity.
  assert (Lr : enable_logging (set (running level)) = true) by reflexivity.
  assert (Lq : enable_logging (set (unlogged level)) = false) by reflexivity.
  destruct (proj1 (log_entry_is_snapshot (running level)
                     (armed (lit 111 10) flying) Hr) Lr)
    as [A [B [_ [_ [C _]]]]].
  destruct (proj2 (log_entry_is_snapshot (unlogged level)
                     (armed (lit 111 10) flying) Hq) Lq) as [D _].
  split; [exact Hr|]. split; [exact A|]. split; [exact B|].
  split; [exact C|]. split; [exact Hq | exact D].
Defined.

(** Cells 4..7 of the bench's [cs->m] after a control tick. *)
Lemma spare_motor_cells_on_bench :
  let e := running level in
  let s := armed (lit 111 10) sideways in
  (num_rotors (set e) <= Z.of_nat 4)%Z
  /\ nth 4 (m (cs (final (feedback_controller e s)))) 0 = nth 4 (m (cs s)) 0.
Proof.
  cbv zeta.
  assert (Hn : (num_rotors (set (running level)) <= Z.of_nat 4)%Z)
    by (intro H; discriminate H).
  split; [exact Hn|].
  exact (proj2 (core_motor_cells_beyond_rotors_kept (running level)
                  (armed (lit 111 10) sideways)) 4%nat Hn).
Defined.

(** A control tick on the bench prints nothing and leaves the LEDs. *)
Lemma silent_tick_on_bench :
  let e := running level in
  let s := armed (lit 111 10) flying in
  runs_control e s = true
  /\ printed (trace (feedback_controller e s)) = []
  /\ annunciations (trace (feedback_controller e s)) = [].
Proof.
  cbv zeta.
  assert (Hrc : runs_control (running level) (armed (lit 111 10) flying) = true)
    by reflexivity.
  destruct (control_tick_is_silent (running level)
              (armed (lit 111 10) flying) Hrc) as [_ [A B]].
  repeat split; assumption.
Defined.

(** Three ticks on the booted, disarmed bench, one of them with a
    tipover reading and one PAUSED. *)
Lemma disarmed_run_on_bench :
  let s := booted (lit 111 10) flying in
  let r := run_ticks [running level; running (imu_tilt (lit 8 5)); paused level]
             s in
  arm_state s = DISARMED
  /\ arm_state (fst r) = DISARMED
  /\ Forall (fun c => snd c = IDLE_PULSE) (esc_commands (snd r))
  /\ List.length (esc_commands (snd r)) = 12%nat
  /\ loop_index (fst r) = loop_index s.
Proof.
  cbv zeta.
  assert (Hd : arm_state (booted (lit 111 10) flying) = DISARMED)
    by reflexivity.
  destruct (disarmed_controller_stays_idle
              [running level; running (imu_tilt (lit 8 5)); paused level]
              (booted (lit 111 10) flying) Hd)
    as [A [B [_ [_ [C _]]]]].
  split; [exact Hd|]. split; [exact A|]. split; [exact B|].
  split; [reflexivity | exact C].
Defined.

(** The pitch controller missing from the settings. *)
Lemma failed_initialisation_on_bench :
  let r := initialize_controller (cstate0 (lit 111 10)) hover
             (Some unit_gain) None (Some unit_gain)
             (armed (lit 111 10) hover) in
  result r = (-1)%Z /\ trace r = [] /\ arm_state (final r) = ARMED.
Proof.
  cbv zeta.
  destruct (initialize_controller_fails_quietly (cstate0 (lit 111 10)) hover
              (Some unit_gain) None (Some unit_gain)
              (armed (lit 111 10) hover) (or_intror (or_introl eq_refl)))
    as [A [B [C _]]].
  split; [exact A|]. split; [exact B | exact C].
Defined.

(** Disarm in flight, then a tick. *)
Lemma tick_after_disarm_on_bench :
  let e := running level in
  let s := armed (lit 111 10) flying in
  (num_rotors (set e) <= 8)%Z
  /\ arm_state s = ARMED
  /\ esc_commands (trace (feedback_controller e (final (disarm_controller s))))
     = idle_commands 4.
Proof.
  cbv zeta.
  assert (Hn : (num_rotors (set (running level)) <= 8)%Z)
    by (intro H; discriminate H).
  split; [exact Hn|]. split; [reflexivity|].
  exact (proj1 (tick_after_disarm_idles (running level)
                  (armed (lit 111 10) flying) Hn)).
Defined.

(** Armed at yaw 3, first tick at yaw 3: no spin counted. *)
Lemma first_tick_on_bench :
  let e := running (imu_yaw (of_int 3)) in
  let s := booted (lit 111 10) hover in
  1 <= PI
  /\ arm_state s = DISARMED
  /\ num_yaw_spins (final (feedback_controller e (final (arm_controller e s))))
     = 0%Z.
Proof.
  cbv zeta.
  assert (Hpi : 1 <= PI) by (intro H; discriminate H).
  assert (Hd : arm_state (booted (lit 111 10) hover) = DISARMED)
    by reflexivity.
  split; [exact Hpi|]. split; [exact Hd|].
  exact (no_spin_on_first_tick_after_arming (running (imu_yaw (of_int 3)))
           (running (imu_yaw (of_int 3))) (booted (lit 111 10) hover) Hpi Hd eq_refl).
Defined.

End BenchRuns.


(** * Runs on the bench, in double precision *)

Section BenchRuns64.

#[local] Existing Instance binary64.
#[local] Existing Instance Bench.defs.
#[local] Existing Instance Bench.lib.
#[local] Existing Instance Bench.mixer.

Import Bench.

Ltac by_evaluation :=
  repeat match goal with
  | |- _ /\ _ => split
  | |- ~ _ => let H := fresh in intro H; vm_compute in H;
              first [discriminate H | exact (H eq_refl) | contradiction]
  | |- _ => vm_compute; first [reflexivity | discriminate | exact I
                              | (intro; discriminate)]
  end.

(** ** The yaw published *)

(** The run of [yaw_published_on_bench] in double precision: armed level,
    then a tick with IMU yaw 0.5.  [cs->yaw] is +0.5, the negated yaw plus
    the spin count times 2 pi is -0.5, and [last_yaw] is 0. *)
Lemma yaw_published_in_double_precision :
  let e := running (imu_yaw (lit 1 2)) in
  let s' := final (feedback_controller e (armed (lit 111 10) hover)) in
  num_yaw_spins s' = 0%Z
  /\ yaw (cs s') = lit 1 2
  /\ - fusedTaitBryan (imu e) VEC3_Z + of_int (num_yaw_spins s') * TWO_PI
     = - lit 1 2
  /\ last_yaw s' = 0%Z
  /\ PrimFloat.eqb (of_int (last_yaw s')) (yaw (cs s')) = false.
Proof. cbv zeta. by_evaluation. Qed.

(** The run of [yaw_jump_on_bench] in double precision: armed at IMU yaw
    3, then two ticks at IMU yaw 3.  The second tick counts a spin and the
    published yaw jumps by 2 pi, more than pi, with the IMU yaw where it
    was. *)
Lemma yaw_jump_in_double_precision :
  let e := running (imu_yaw (of_int 3)) in
  let s0 := final (arm_controller e (booted (lit 111 10) hover)) in
  let s1 := final (feedback_controller e s0) in
  let s2 := final (feedback_controller e s1) in
  (- PI <? fusedTaitBryan (imu e) VEC3_Z) = true
  /\ (PI <? fusedTaitBryan (imu e) VEC3_Z) = false
  /\ num_yaw_spins s0 = 0%Z /\ last_yaw s0 = (-3)%Z
  /\ num_yaw_spins s1 = 0%Z /\ yaw (cs s1) = of_int 3 /\ last_yaw s1 = 3%Z
  /\ num_yaw_spins s2 = 1%Z /\ yaw (cs s2) = of_int 3 + TWO_PI
  /\ (PI + fabs (fusedTaitBryan (imu e) VEC3_Z - fusedTaitBryan (imu e) VEC3_Z)
      <? fabs (yaw (cs s2) - yaw (cs s1))) = true.
Proof. cbv zeta. by_evaluation. Qed.

(** ** The motors in the core state *)

(** The run of [core_motors_above_one_on_bench] in double precision:
    [cs->m] records a value above 1 for each of the four rotors, and the
    ESCs are sent 1. *)
Lemma core_motors_above_one_in_double_precision :
  let e := running level in
  let s := armed (lit 111 10) sideways in
  let r := feedback_controller e s in
  nth 0 (m (cs (final r))) 0 = lit 1 2 + lit 4 5
  /\ (1 <? nth 0 (m (cs (final r))) 0) = true
  /\ esc_commands (trace r) = [(1%Z, 1); (2%Z, 1); (3%Z, 1); (4%Z, 1)].
Proof. cbv zeta. by_evaluation. Qed.

(** ** The final saturation *)

(** C3, on the bench.  The controller is armed and RUNNING, the vehicle is
    level, the setpoint is the hover, and the battery voltage in [cs] is
    0, no sample having been stored there yet.  Gain scheduling divides by
    it: the three gains become infinite, the compensators
    multiply them by an error of 0, and what they pass to the mixer is not
    a number.  Neither comparison of [saturate_double] holds of a NaN: the
    final saturation leaves the four motor values as they are, and NaN,
    which is not within [0, 1], is sent to each of the four ESCs. *)
Theorem not_a_number_passes_final_saturation_on_bench :
  let e := running level in
  let s := armed 0 hover in
  let r := feedback_controller e s in
  runs_control e s = true
  /\ v_batt (cs s) = 0
  /\ gain (D_roll (final r)) = PrimFloat.infinity
  /\ u (final r) VEC_ROLL = PrimFloat.nan
  /\ mixed e s = [PrimFloat.nan; PrimFloat.nan; PrimFloat.nan; PrimFloat.nan]
  /\ saturate_double PrimFloat.nan 0 1 = PrimFloat.nan
  /\ esc_commands (trace r)
     = [(1%Z, PrimFloat.nan); (2%Z, PrimFloat.nan); (3%Z, PrimFloat.nan);
        (4%Z, PrimFloat.nan)]
  /\ ~ Forall (fun c => PrimFloat.leb 0 (snd c) = true
                        /\ PrimFloat.leb (snd c) 1 = true)
              (esc_commands (trace r)).
Proof.
  cbv zeta. repeat (split; [vm_compute; reflexivity|]).
  intro H. vm_compute in H. inversion H as [|c l [H0 _] _]. discriminate H0.
Qed.

(** The armed hover tick at the nominal voltage, read through the
    theorem: four commands, each within [0, 1]. *)
Lemma esc_outputs_on_bench :
  let e := running level in
  let s := armed (lit 111 10) hover in
  let cmds := esc_commands (trace (feedback_controller e s)) in
  runs_control e s = true
  /\ map fst cmds = [1%Z; 2%Z; 3%Z; 4%Z]
  /\ Forall (fun c => PrimFloat.leb 0 (snd c) = true
                      /\ PrimFloat.leb (snd c) 1 = true) cmds.
Proof.
  cbv zeta.
  assert (Hrc : runs_control (running level) (armed (lit 111 10) hover) = true)
    by (vm_compute; reflexivity).
  destruct (esc_outputs_clamped_or_not_a_number (running level)
              (armed (lit 111 10) hover) Hrc) as [Heq _].
  split; [exact Hrc|]. rewrite Heq. split.
  - rewrite map_map. vm_compute. reflexivity.
  - vm_compute. repeat constructor.
Defined.

(** ** Gain scheduling *)

(** Against C8.  The three gains are 7.64 and the nominal voltage is
    11.1 V.  With the battery at 11.1 V the roll gain after a control tick
    is 7.64 * 11.1 / 11.1 as [double] computes it, which is not 7.64.  With
    the battery at 5.55 V, half the nominal voltage, the roll gain at the
    start of the first tick after arming is 7.64, not twice that, and
    after the tick it is not exactly twice 7.64 either.  A tick on the
    disarmed controller, and an armed tick with [en_rpy_ctrl] off, leave
    the gain at its [gain_orig]. *)
Lemma gain_not_exact_on_bench :
  let e := running level in
  let s := tuned (lit 764 100) (lit 111 10) hover in
  let h := tuned (lit 764 100) (lit 555 100) hover in
  let d := booted (lit 555 100) hover in
  let o := armed (lit 555 100) sideways in
  runs_control e s = true /\ en_rpy_ctrl (sp s) = true
  /\ v_batt (cs s) = v_nominal (set e)
  /\ D_roll_gain_orig s = lit 764 100
  /\ PrimFloat.eqb (gain (D_roll (final (feedback_controller e s))))
                   (D_roll_gain_orig s) = false
  /\ runs_control e h = true /\ en_rpy_ctrl (sp h) = true
  /\ v_batt (cs h) = lit 1 2 * v_nominal (set e)
  /\ gain (D_roll h) = D_roll_gain_orig h
  /\ PrimFloat.eqb (gain (D_roll h)) (of_int 2 * D_roll_gain_orig h) = false
  /\ PrimFloat.eqb (gain (D_roll (final (feedback_controller e h))))
                   (of_int 2 * D_roll_gain_orig h) = false
  /\ v_batt (cs d) = lit 1 2 * v_nominal (set e)
  /\ PrimFloat.eqb (gain (D_roll (final (feedback_controller e d))))
                   (of_int 2 * D_roll_gain_orig d) = false
  /\ v_batt (cs o) = lit 1 2 * v_nominal (set e)
  /\ PrimFloat.eqb (gain (D_roll (final (feedback_controller e o))))
                   (of_int 2 * D_roll_gain_orig o) = false.
Proof. cbv zeta. by_evaluation. Qed.

(** Armed ticks on the bench with unit gains and [en_rpy_ctrl] on, read
    through the theorem: at 11.1 V the roll gain after the tick is
    1 * 11.1 / 11.1, which is 1, and at 5.55 V it is 1 * 11.1 / 5.55, which
    is 2.  A tick on the disarmed controller leaves the roll compensator
    as it was. *)
Lemma gain_scheduling_on_bench :
  let e := running level in
  let s := armed (lit 111 10) hover in
  let h := armed (lit 555 100) hover in
  let d := booted (lit 555 100) hover in
  runs_control e s = true /\ en_rpy_ctrl (sp s) = true
  /\ gain (D_roll (final (feedback_controller e s))) = 1
  /\ runs_control e h = true /\ en_rpy_ctrl (sp h) = true
  /\ gain (D_roll (final (feedback_controller e h))) = of_int 2
  /\ runs_control e d = false
  /\ D_roll (final (feedback_controller e d)) = D_roll d.
Proof.
  cbv zeta.
  assert (Hrs : runs_control (running level) (armed (lit 111 10) hover) = true)
    by (vm_compute; reflexivity).
  assert (Hrh : runs_control (running level) (armed (lit 555 100) hover) = true)
    by (vm_compute; reflexivity).
  assert (Hrd : runs_control (running level) (booted (lit 555 100) hover)
                = false) by (vm_compute; reflexivity).
  assert (Hes : en_rpy_ctrl (sp (armed (lit 111 10) hover)) = true)
    by (vm_compute; reflexivity).
  assert (Heh : en_rpy_ctrl (sp (armed (lit 555 100) hover)) = true)
    by (vm_compute; reflexivity).
  destruct (gain_scheduling_in_tick (running level) (armed (lit 111 10) hover))
    as [H1 _].
  destruct (gain_scheduling_in_tick (running level) (armed (lit 555 100) hover))
    as [H2 _].
  destruct (gain_scheduling_in_tick (running level) (booted (lit 555 100) hover))
    as [_ H3].
  split; [exact Hrs|]. split; [exact Hes|].
  split; [rewrite (proj1 (H1 Hrs Hes)); vm_compute; reflexivity|].
  split; [exact Hrh|]. split; [exact Heh|].
  split; [rewrite (proj1 (H2 Hrh Heh)); vm_compute; reflexivity|].
  split; [exact Hrd|].
  exact (proj1 (H3 (or_introl Hrd))).
Defined.

(** ** The arm state *)

(** An armed tick during which the run state goes from RUNNING to PAUSED
    between the two calls of [get_state()]: the motors are idled and the
    controller is still ARMED. *)
Lemma pausing_tick_on_bench :
  let e := pausing level in
  let s := armed (lit 111 10) hover in
  let r := feedback_controller e s in
  tipped e = false /\ arm_state s = ARMED
  /\ get_state e disarm_test = RUNNING /\ get_state e idle_test <> RUNNING
  /\ runs_control e s = false
  /\ arm_state (final r) = ARMED
  /\ Forall (fun c => snd c = IDLE_PULSE) (esc_commands (trace r)).
Proof.
  cbv zeta.
  assert (Ht : tipped (pausing level) = false) by (vm_compute; reflexivity).
  assert (Ha : arm_state (armed (lit 111 10) hover) = ARMED) by (vm_compute; reflexivity).
  assert (H1 : get_state (pausing level) disarm_test = RUNNING)
    by (vm_compute; reflexivity).
  assert (H2 : get_state (pausing level) idle_test <> RUNNING)
    by (intro H; discriminate H).
  destruct (tick_never_arms (pausing level) (armed (lit 111 10) hover))
    as [_ [_ [_ H]]].
  destruct (H Ht Ha H1 H2) as [A [B _]].
  split; [exact Ht|]. split; [exact Ha|]. split; [exact H1|].
  split; [exact H2|]. split; [vm_compute; reflexivity|]. split; [exact A | exact B].
Defined.

End BenchRuns64.
